(** * cgpu: the remote command runner (remote-command-runner.ts)

    A shallow embedding of [RemoteCommandRunner]: the sentinel protocol that
    recovers a command's exit status from a remote pseudo-terminal stream,
    the line buffer that reassembles [stdout] frames into lines, and the
    two-step handshake ([POST api/terminals], then the websocket).

    JavaScript strings are sequences of UTF-16 code units; they are modelled
    as lists of code units, and every string method the runner calls is
    written out with the semantics ECMAScript gives it. *)

From Stdlib Require Import Ascii String.
From Stdlib Require Import List ZArith NArith Bool Lia.
Import ListNotations.

Set Implicit Arguments.
Set Warnings "-register-all".

(** ** JavaScript strings *)

Module JS.

Definition code_unit := N.
Definition str := list code_unit.

(** String literals of the source, written as Rocq strings (all of them are
    ASCII, where bytes and code units coincide). *)
Definition lit (s : string) : str :=
  List.map N_of_ascii (list_ascii_of_string s).

Fixpoint str_eqb (a b : str) : bool :=
  match a, b with
  | [], [] => true
  | x :: a', y :: b' => N.eqb x y && str_eqb a' b'
  | _, _ => false
  end.

(** [s.startsWith(p)] *)
Fixpoint startsWith (s p : str) {struct p} : bool :=
  match p with
  | [] => true
  | y :: p' =>
      match s with
      | [] => false
      | x :: s' => N.eqb x y && startsWith s' p'
      end
  end.

(** [s.indexOf(p)], [-1] when [p] does not occur. *)
Fixpoint indexOf_from (s p : str) (i : Z) : Z :=
  if startsWith s p then i
  else match s with
       | [] => (-1)%Z
       | _ :: s' => indexOf_from s' p (i + 1)
       end.

Definition indexOf (s p : str) : Z := indexOf_from s p 0.

(** [s.slice(start, end)]: a negative index counts from the end, and both
    ends are clamped to the string. [s.slice(start)] is [slice s start None]. *)
Definition clamp_index (len i : Z) : Z :=
  if (i <? 0)%Z then Z.max (len + i) 0 else Z.min i len.

Definition slice (s : str) (start : Z) (end_ : option Z) : str :=
  let len := Z.of_nat (List.length s) in
  let from := clamp_index len start in
  let to := match end_ with
            | None => len
            | Some e => clamp_index len e
            end in
  firstn (Z.to_nat (to - from)) (skipn (Z.to_nat from) s).

(** White space and line terminators, the code units [trim] and [parseInt]
    strip: TAB, LF, VT, FF, CR, SP, NBSP, U+1680, U+2000..U+200A, LS, PS,
    U+202F, U+205F, U+3000 and the byte order mark. *)
Definition isWhiteSpace (c : code_unit) : bool :=
  ((9 <=? c) && (c <=? 13) || (c =? 32) || (c =? 160) || (c =? 5760)
   || (8192 <=? c) && (c <=? 8202) || (c =? 8232) || (c =? 8233)
   || (c =? 8239) || (c =? 8287) || (c =? 12288) || (c =? 65279))%N.

Fixpoint trimStart (s : str) : str :=
  match s with
  | c :: s' => if isWhiteSpace c then trimStart s' else s
  | [] => []
  end.

Definition trimEnd (s : str) : str := rev (trimStart (rev s)).

(** [s.trim()] *)
Definition trim (s : str) : str := trimEnd (trimStart s).

(** *** Numbers

    An exit code is a JavaScript Number. [parseInt] only produces integral
    values: an integer that a binary64 holds, the negative zero, or an
    infinity when the digits overflow the format. NaN is the [None] of
    [parseInt]'s result. *)
Inductive number :=
| Finite (z : Z)
| NegZero
| Infinity (negative : bool).

(** The Number nearest to a non-negative mathematical integer: exact below
    2^53, otherwise rounded to 53 significant bits, ties to even. *)
Definition toNumber (n : Z) : number :=
  if (n <? 2 ^ 53)%Z then Finite n
  else
    let e := (Z.log2 n - 52)%Z in
    let q := Z.shiftr n e in
    let r := (n - Z.shiftl q e)%Z in
    let half := Z.shiftl 1 (e - 1) in
    let q' := if ((half <? r) || (r =? half) && Z.odd q)%Z
              then (q + 1)%Z else q in
    let v := Z.shiftl q' e in
    if (2 ^ 1024 <=? v)%Z then Infinity false else Finite v.

Definition negate (x : number) : number :=
  match x with
  | Finite 0 => NegZero
  | Finite z => Finite (- z)
  | NegZero => Finite 0
  | Infinity b => Infinity (negb b)
  end.

Definition isDigit (c : code_unit) : bool := ((48 <=? c) && (c <=? 57))%N.

(** The longest prefix of decimal digits, as (number of digits, value). *)
Fixpoint digits (s : str) (count : nat) (acc : Z) : nat * Z :=
  match s with
  | c :: s' =>
      if isDigit c then digits s' (S count) (10 * acc + (Z.of_N c - 48))%Z
      else (count, acc)
  | [] => (count, acc)
  end.

(** [Number.parseInt(s, 10)]: skip leading white space, read an optional
    sign, then the longest run of decimal digits; what follows the digits is
    ignored. [None] is NaN (no digit where one is expected). *)
Definition parseInt10 (s : str) : option number :=
  let s1 := trimStart s in
  let '(negative, s2) :=
    match s1 with
    | c :: t =>
        if (c =? 45)%N then (true, t)
        else if (c =? 43)%N then (false, t)
        else (false, s1)
    | [] => (false, s1)
    end in
  match digits s2 0 0 with
  | (O, _) => None
  | (_, mathInt) =>
      Some (if negative then negate (toNumber mathInt) else toNumber mathInt)
  end.

(** *** Regular expressions

    The one pattern of the source is a sequence of single-character classes
    and greedy stars of classes. [match_here] is the backtracking matcher:
    it returns what is left of the input after the first match the greedy,
    leftmost-first search finds. *)
Inductive re_node :=
| One (cls : code_unit -> bool)
| Many (cls : code_unit -> bool).

Fixpoint match_star (cls : code_unit -> bool) (k : str -> option str)
  (s : str) : option str :=
  match s with
  | c :: s' =>
      if cls c then
        match match_star cls k s' with
        | Some r => Some r
        | None => k s
        end
      else k s
  | [] => k s
  end.

Fixpoint match_here (re : list re_node) : str -> option str :=
  match re with
  | [] => fun s => Some s
  | One cls :: re' =>
      fun s =>
        match s with
        | c :: s' => if cls c then match_here re' s' else None
        | [] => None
        end
  | Many cls :: re' => match_star cls (match_here re')
  end.

(** [s.replace(re, "")] for a global [re]: scan left to right, drop every
    match and resume after it. [skip] counts the code units of the current
    match still to drop; a match of length 0 removes nothing. *)
Fixpoint replace_go (re : list re_node) (skip : nat) (s : str) : str :=
  match s with
  | [] => []
  | c :: s' =>
      match skip with
      | S k => replace_go re k s'
      | O =>
          match match_here re s with
          | Some r =>
              match (List.length s - List.length r)%nat with
              | O => c :: replace_go re 0 s'
              | S k => replace_go re k s'
              end
          | None => c :: replace_go re 0 s'
          end
      end
  end.

Definition replaceAll (re : list re_node) (s : str) : str := replace_go re 0 s.

(** *** Values

    What [JSON.parse] returns, and [undefined] for a property that is not
    there. A Number is kept as the text [ToString] gives it, the only thing
    this program does with one. An object is the list of its own properties,
    each key once. *)
Inductive value :=
| VUndefined
| VNull
| VBool (b : bool)
| VNum (rendering : str)
| VStr (s : str)
| VArr (elems : list value)
| VObj (props : list (str * value)).

Fixpoint lookup (key : str) (props : list (str * value)) : option value :=
  match props with
  | [] => None
  | (k, v) :: rest => if str_eqb k key then Some v else lookup key rest
  end.

Definition orUndefined (o : option value) : value :=
  match o with Some v => v | None => VUndefined end.

(** The property key of a one-digit index. *)
Definition indexKey (i : nat) : str := [N.of_nat (48 + i)].

(** [v[i]] for an index [i] below ten: [None] is the TypeError of reading a
    property of [null] or [undefined]. *)
Definition getIndex (v : value) (i : nat) : option value :=
  match v with
  | VUndefined | VNull => None
  | VBool _ | VNum _ => Some VUndefined
  | VStr s =>
      Some (match nth_error s i with
            | Some c => VStr [c]
            | None => VUndefined
            end)
  | VArr l => Some (orUndefined (nth_error l i))
  | VObj props => Some (orUndefined (lookup (indexKey i) props))
  end.

(** [v.name] for a property name no prototype defines on these values. *)
Definition getNamed (v : value) (key : str) : option value :=
  match v with
  | VUndefined | VNull => None
  | VObj props => Some (orUndefined (lookup key props))
  | _ => Some VUndefined
  end.

(** [parts.join(sep)] *)
Fixpoint join (sep : str) (parts : list str) : str :=
  match parts with
  | [] => []
  | [p] => p
  | p :: rest => p ++ sep ++ join sep rest
  end.

Definition sequence (l : list (option str)) : option (list str) :=
  fold_right (fun o acc =>
                match o, acc with
                | Some x, Some xs => Some (x :: xs)
                | _, _ => None
                end) (Some []) l.

(** [ToString(v)], as string concatenation and template literals apply it.
    [None] is a TypeError: a parsed object whose own [toString] property
    shadows the inherited method has no primitive value. An array is joined
    with commas, [null] and [undefined] elements as the empty string. *)
Fixpoint ToString (v : value) : option str :=
  match v with
  | VUndefined => Some (lit "undefined")
  | VNull => Some (lit "null")
  | VBool true => Some (lit "true")
  | VBool false => Some (lit "false")
  | VNum r => Some r
  | VStr s => Some s
  | VArr l =>
      option_map (join [44%N])
        (sequence (List.map (fun e =>
                               match e with
                               | VUndefined | VNull => Some []
                               | _ => ToString e
                               end) l))
  | VObj props =>
      match lookup (lit "toString") props with
      | Some _ => None
      | None => Some (lit "[object Object]")
      end
  end.

End JS.

Import JS.

(** ** The runner *)

Definition EXIT_SENTINEL_PREFIX : str := lit "__COLAB_CLI_EXIT__".

Definition isEsc (c : code_unit) : bool := (c =? 27)%N.
Definition isBracket (c : code_unit) : bool := (c =? 91)%N.
(** [[0-9;?]] *)
Definition isParam (c : code_unit) : bool :=
  ((48 <=? c) && (c <=? 57) || (c =? 59) || (c =? 63))%N.
(** [[ -\/]] *)
Definition isIntermediate (c : code_unit) : bool := ((32 <=? c) && (c <=? 47))%N.
(** [[@-~]] *)
Definition isFinal (c : code_unit) : bool := ((64 <=? c) && (c <=? 126))%N.

(** [/\u001b\[[0-9;?]*[ -\/]*[@-~]/g] *)
Definition ANSI_ESCAPE_REGEX : list re_node :=
  [One isEsc; One isBracket; Many isParam; Many isIntermediate; One isFinal].

(** [/\r/g] *)
Definition CR_REGEX : list re_node := [One (fun c => (c =? 13)%N)].

Definition PROMPT_PREFIX : str := lit "/# ".

Definition newline : str := [10%N].

Definition len (s : str) : Z := Z.of_nat (List.length s).

(** What can be thrown: an [Error] of the runner with its message, the
    TypeError and SyntaxError of the language, and the failures the network
    layer reports ([fetch] rejecting, the socket's ["error"] event). *)
Inductive exn :=
| Error (message : str)
| TypeError
| SyntaxError
| Failure (id : nat).

(** What the runner does to the outside, in order. The colours [chalk] adds
    to a console message are left out. *)
Inductive action :=
| ConsoleLog (message : str)
| ConsoleWarn (message : str) (err : option exn)
| HttpPost (path : str)
| WsConnect (path : str)
| WsSend (frame : value)
| StdoutWrite (text : str)
| StderrWrite (text : str).

Definition stripAnsi (v : str) : str := replaceAll ANSI_ESCAPE_REGEX v.

Definition shouldSuppressLine (line exitMarker : str) : bool :=
  if startsWith line (exitMarker ++ lit ":") then true
  else if startsWith line (lit "printf '__COLAB_CLI_EXIT__") then true
  else if str_eqb line (lit "PS1=") then true
  else if str_eqb line (lit "stty -echo") then true
  else if str_eqb line (lit "stty echo") then true
  else if str_eqb line (lit "exit") then true
  else if str_eqb line (lit "logout") then true
  else false.

(** How an asynchronous call ends; [Pending] is a promise that the events
    given never settle. *)
Inductive settled (A : Type) :=
| Resolved (a : A)
| Rejected (err : exn)
| Pending.

Arguments Resolved {A} a.

(** An asynchronous method: it adds to the actions so far and settles. *)
Definition task (A : Type) : Type := list action -> settled A * list action.

Definition ret {A} (a : A) : task A := fun t => (Resolved a, t).
Definition throw {A} (e : exn) : task A := fun t => (Rejected A e, t).
Definition tell (a : action) : task unit := fun t => (Resolved tt, t ++ [a]).

Definition bind {A B} (m : task A) (f : A -> task B) : task B :=
  fun t =>
    match m t with
    | (Resolved a, t') => f a t'
    | (Rejected _ e, t') => (Rejected B e, t')
    | (Pending _, t') => (Pending B, t')
    end.

Notation "x <- m ;; k" := (bind m (fun x => k))
  (at level 61, m at next level, right associativity).
Notation "m ;;; k" := (bind m (fun _ => k))
  (at level 61, right associativity).

(** What the socket delivers once it is open. *)
Inductive ws_event :=
| Message (data : option value)
| Close
| SocketError (err : exn).

(** ** The line buffer

    The [stdout] case of the listener: append the frame's text to the
    buffer, then hand every complete line to the callback. The loop is
    written over any callback and any state the callback works on; the
    runner passes [flushLine]. *)

Section LineProcessor.

Variable St : Type.
Variable flush : str -> St -> St.

(** The [while] loop. Every turn removes at least the newline from the
    buffer, so [drain] gives it more turns than the buffer has code units. *)
Fixpoint drain_loop (fuel : nat) (stdoutBuffer : str) (st : St) : str * St :=
  match fuel with
  | O => (stdoutBuffer, st)
  | S fuel' =>
      let newlineIndex := indexOf stdoutBuffer newline in
      if (newlineIndex =? -1)%Z then (stdoutBuffer, st)
      else
        let line := slice stdoutBuffer 0 (Some newlineIndex) in
        let stdoutBuffer' := slice stdoutBuffer (newlineIndex + 1) None in
        drain_loop fuel' stdoutBuffer' (flush line st)
  end.

Definition drain (stdoutBuffer : str) (st : St) : str * St :=
  drain_loop (S (List.length stdoutBuffer)) stdoutBuffer st.

(** [stdoutBuffer += text], then the loop. *)
Definition feed (text : str) (b : str * St) : str * St :=
  drain (fst b ++ text) (snd b).

Definition feedAll (chunks : list str) (b : str * St) : str * St :=
  fold_left (fun b text => feed text b) chunks b.

End LineProcessor.

(** The lines the loop completes when the chunks arrive one after the
    other, and what stays in the buffer. *)
Definition completedLines (chunks : list str) : list str * str :=
  let (buffer, lines) :=
    feedAll (fun line lines => lines ++ [line]) chunks ([], []) in
  (lines, buffer).

(** ** [streamCommand] *)

(** What [flushLine] changes: the exit code, and the actions so far. *)
Record sink := {
  capturedExitCode : option number;
  trace : list action
}.

Definition emit (a : action) (st : sink) : sink :=
  {| capturedExitCode := capturedExitCode st; trace := trace st ++ [a] |}.

Definition setExitCode (code : number) (st : sink) : sink :=
  {| capturedExitCode := Some code; trace := trace st |}.

(** The variables [streamCommand] closes over: [stdoutBuffer] and the rest. *)
Definition closure : Type := str * sink.

(** The socket with the listeners [streamCommand] puts on it. The
    ["message"] listener stays for good ([ws.on]); the ["close"] and
    ["error"] listeners are taken off when they have run ([ws.once]), and
    so is the ["error"] listener [executeInTerminal] left on the socket.
    [thrown] is the error of an ["error"] event that finds no listener
    left: the emitter throws it. *)
Record wiring := {
  vars : closure;
  exitPromise : settled number;
  closeListener : bool;
  errorListener : bool;
  thrown : option exn
}.

(** [resolve] and [reject]: a promise settles once. *)
Definition settle (outcome promise : settled number) : settled number :=
  match promise with
  | Pending _ => outcome
  | _ => promise
  end.

Definition wired (c : closure) : wiring :=
  {| vars := c; exitPromise := Pending _;
     closeListener := true; errorListener := true; thrown := None |}.

Section Stream.

(** [this.options.verbose] and the marker of this run. *)
Variable verbose : bool.
Variable exitMarker : str.

Definition normalize (line : str) : str :=
  stripAnsi (replaceAll CR_REGEX line).

Definition withoutPrompt (line : str) : str :=
  let normalized := normalize line in
  if startsWith normalized PROMPT_PREFIX
  then slice normalized (len PROMPT_PREFIX) None
  else normalized.

Definition detectionTarget (line : str) : str := trim (withoutPrompt line).

Definition flushLine (line : str) (st : sink) : sink :=
  let withoutPrompt := withoutPrompt line in
  let detectionTarget := trim withoutPrompt in
  if startsWith detectionTarget (exitMarker ++ lit ":") then
    match parseInt10 (slice detectionTarget (len exitMarker + 1) None) with
    | Some code => setExitCode code st
    | None => st
    end
  else if negb verbose && shouldSuppressLine detectionTarget exitMarker then st
  else
    let outputLine := if negb verbose then withoutPrompt else line in
    if (0 <? len outputLine)%Z
    then emit (StdoutWrite (outputLine ++ newline)) st
    else st.

Definition parseWarning (e : exn) : action :=
  ConsoleWarn (lit "Failed to parse terminal frame") (Some e).

Definition warnFrame (e : exn) (c : closure) : closure :=
  (fst c, emit (parseWarning e) (snd c)).

(** The ["message"] listener. [None] is a message [JSON.parse] rejects.
    Whatever is thrown inside the [try] ends in the [catch]. *)
Definition onMessage (data : option value) (c : closure) : closure :=
  match data with
  | None => warnFrame SyntaxError c
  | Some frame =>
      match getIndex frame 0 with
      | None => warnFrame TypeError c
      | Some tag =>
          match tag with
          | VStr t =>
              if str_eqb t (lit "stdout") then
                match ToString (orUndefined (getIndex frame 1)) with
                | Some text => feed flushLine text c
                | None => warnFrame TypeError c
                end
              else if str_eqb t (lit "stderr") then
                match orUndefined (getIndex frame 1) with
                | VStr text => (fst c, emit (StderrWrite text) (snd c))
                | _ => warnFrame TypeError c
                end
              else if str_eqb t (lit "disconnect") then
                if verbose
                then (fst c,
                      emit (ConsoleLog (lit "Remote runtime disconnected."))
                        (snd c))
                else c
              else c
          | _ => c
          end
      end
  end.

Definition missingExitCodeWarning : action :=
  ConsoleWarn
    (lit "Command finished without reporting an exit code; assuming failure (exit code 1).")
    None.

(** The ["close"] listener: what it resolves the promise with, and the
    closure after it. *)
Definition onClose (c : closure) : number * closure :=
  let c1 :=
    if (0 <? len (fst c))%Z
    then ([], flushLine (fst c) (snd c))
    else c in
  match capturedExitCode (snd c1) with
  | None => (Finite 1, (fst c1, emit missingExitCodeWarning (snd c1)))
  | Some code => (code, c1)
  end.

(** The events in arrival order, up to the one that settles [exitPromise]:
    ["close"] resolves it, ["error"] rejects it, and the caller of [run]
    goes on. The result is the promise and the closure at that moment.
    Rejecting or resolving takes no listener off the socket: what the
    listeners do with the events after that moment is in [listen]. *)
Fixpoint deliver (events : list ws_event) (c : closure)
  : settled number * closure :=
  match events with
  | [] => (Pending _, c)
  | Message data :: rest => deliver rest (onMessage data c)
  | Close :: _ => let (code, c') := onClose c in (Resolved code, c')
  | SocketError err :: _ => (Rejected _ err, c)
  end.

(** The events in arrival order, for as long as the socket emits them. A
    ["close"] runs the close listener the first time only; an ["error"]
    rejects the first time only, and a later one, with no listener left,
    is thrown by the emitter and ends the listening. *)
Fixpoint listen (events : list ws_event) (s : wiring) : wiring :=
  match events with
  | [] => s
  | Message data :: rest =>
      listen rest
        {| vars := onMessage data (vars s);
           exitPromise := exitPromise s;
           closeListener := closeListener s;
           errorListener := errorListener s;
           thrown := thrown s |}
  | Close :: rest =>
      if closeListener s then
        let (code, c') := onClose (vars s) in
        listen rest
          {| vars := c';
             exitPromise := settle (Resolved code) (exitPromise s);
             closeListener := false;
             errorListener := errorListener s;
             thrown := thrown s |}
      else listen rest s
  | SocketError err :: rest =>
      if errorListener s then
        listen rest
          {| vars := vars s;
             exitPromise := settle (Rejected _ err) (exitPromise s);
             closeListener := closeListener s;
             errorListener := false;
             thrown := thrown s |}
      else
        {| vars := vars s;
           exitPromise := exitPromise s;
           closeListener := closeListener s;
           errorListener := false;
           thrown := Some err |}
  end.

Definition quote : str := [34%N].

Definition payload (command : str) : str :=
  join newline
    [lit "stty -echo";
     lit "PS1=";
     command;
     lit "__COLAB_CLI_STATUS=$?";
     lit "stty echo";
     lit "printf '" ++ exitMarker ++ lit ":%s\n' "
       ++ quote ++ lit "$__COLAB_CLI_STATUS" ++ quote;
     lit "exit";
     []].

Definition stdinFrame (command : str) : value :=
  VArr [VStr (lit "stdin"); VStr (payload command)].

Definition streamCommand (events : list ws_event) (command : str)
  : task number :=
  fun before =>
    let c := ([], {| capturedExitCode := None;
                     trace := before ++ [WsSend (stdinFrame command)] |}) in
    let (result, c') := deliver events c in
    (result, trace (snd c')).

End Stream.

(** ** The handshake and [run] *)

(** [this.runtime] and [this.options], as far as the runner reads them.
    [proxyUrlValid] says whether [new URL(runtime.proxy.url)] succeeds. *)
Record runner := {
  verbose : bool;
  label : str;
  proxyUrlValid : bool
}.

(** What [fetch] settles with; the body is [None] when [res.json()] rejects. *)
Inductive fetch_result :=
| FetchFailed (err : exn)
| Response (ok : bool) (statusText : str) (body : option value).

(** The remote side of one run. *)
Record world := {
  fetched : fetch_result;
  opened : option exn;          (* [None]: "open"; [Some e]: the socket fails first *)
  uuid : str;                   (* what [randomUUID()] returns *)
  events : list ws_event
}.

Section Run.

Variable self : runner.
Variable w : world.

Definition parseProxyUrl : task unit :=
  if proxyUrlValid self then ret tt else throw TypeError.

Definition liftThrow {A} (o : option A) : task A :=
  match o with
  | Some a => ret a
  | None => throw TypeError
  end.

Definition createRemoteTerminal : task value :=
  parseProxyUrl ;;;
  tell (HttpPost (lit "api/terminals")) ;;;
  match fetched w with
  | FetchFailed err => throw err
  | Response ok statusText body =>
      if negb ok then
        throw (Error (lit "Failed to create remote terminal: " ++ statusText))
      else
        match body with
        | None => throw SyntaxError
        | Some json => liftThrow (getNamed json (lit "name"))
        end
  end.

Definition executeInTerminal (name : value) (command : str) : task number :=
  parseProxyUrl ;;;
  path <- liftThrow (ToString name) ;;
  tell (WsConnect (lit "terminals/websocket/" ++ path)) ;;;
  match opened w with
  | Some err => throw err
  | None =>
      let exitMarker := EXIT_SENTINEL_PREFIX ++ uuid w in
      streamCommand (verbose self) exitMarker (events w) command
  end.

Definition run (command : str) : task number :=
  match trim command with
  | [] => throw (Error (lit "Cannot run an empty command"))
  | _ =>
      (if verbose self
       then tell (ConsoleLog (lit "Running remote command on " ++ label self
                                ++ lit ": " ++ command))
       else ret tt) ;;;
      terminalName <- createRemoteTerminal ;;
      executeInTerminal terminalName command
  end.

End Run.

(** ** What the specification talks about *)

(** A line has no newline in it. *)
Definition noNewline (s : str) : Prop := ~ In 10%N s.

(** The text made of the given complete lines and a last, unterminated one. *)
Definition joinLines (lines : list str) (partial : str) : str :=
  concat (List.map (fun l => l ++ newline) lines) ++ partial.

(** The complete lines of a text and the unterminated rest, read off the
    text one code unit at a time. *)
Fixpoint splitLines (s : str) : list str * str :=
  match s with
  | [] => ([], [])
  | c :: s' =>
      let (ls, r) := splitLines s' in
      if (c =? 10)%N then ([] :: ls, r)
      else match ls with
           | [] => ([], c :: r)
           | l :: ls' => ((c :: l) :: ls', r)
           end
  end.

(** Every line handed to the callback, in order. *)
Definition flushAll {St : Type} (flush : str -> St -> St)
  (lines : list str) (st : St) : St :=
  fold_left (fun st line => flush line st) lines st.

(** The line is the sentinel of this run. *)
Definition isSentinel (exitMarker line : str) : bool :=
  startsWith (detectionTarget line) (exitMarker ++ lit ":").

(** What follows ["<marker>:"] on a sentinel line. *)
Definition sentinelRemainder (exitMarker line : str) : str :=
  slice (detectionTarget line) (len exitMarker + 1) None.

(** What a line does to the captured exit code. *)
Definition stepCode (exitMarker : str) (code : option number) (line : str)
  : option number :=
  if isSentinel exitMarker line then
    match parseInt10 (sentinelRemainder exitMarker line) with
    | Some n => Some n
    | None => code
    end
  else code.

Definition exitMarkerOf (w : world) : str := EXIT_SENTINEL_PREFIX ++ uuid w.

(** The value of a run of decimal digits. *)
Definition decimal (ds : str) : Z :=
  fold_left (fun acc c => (10 * acc + (Z.of_N c - 48))%Z) ds 0%Z.

Definition startsWithDigit (s : str) : bool :=
  match s with
  | c :: _ => isDigit c
  | [] => false
  end.

Definition applySign (sign : str) (n : number) : number :=
  if str_eqb sign (lit "-") then negate n else n.

(** The text starts with an integer: optional white space, an optional
    sign, at least one decimal digit, and anything that is not a digit
    after the digits. *)
Inductive leadingInteger : str -> number -> Prop :=
| leading (ws sign ds rest : str) :
    forallb isWhiteSpace ws = true ->
    In sign [[]; lit "+"; lit "-"] ->
    ds <> [] ->
    forallb isDigit ds = true ->
    startsWithDigit rest = false ->
    leadingInteger (ws ++ sign ++ ds ++ rest)
      (applySign sign (toNumber (decimal ds))).

(** The text does not start with an integer: after the white space comes
    the end, or a sign with no digit behind it, or anything else that is
    not a digit. *)
Inductive noInteger : str -> Prop :=
| nothing (ws : str) :
    forallb isWhiteSpace ws = true -> noInteger ws
| bareSign (ws sign rest : str) :
    forallb isWhiteSpace ws = true ->
    In sign [lit "+"; lit "-"] ->
    startsWithDigit rest = false ->
    noInteger (ws ++ sign ++ rest)
| otherText (ws : str) (c : code_unit) (rest : str) :
    forallb isWhiteSpace ws = true ->
    isWhiteSpace c = false -> isDigit c = false ->
    c <> 43%N -> c <> 45%N ->
    noInteger (ws ++ c :: rest).

(** The code units of [randomUUID()]: lower-case hexadecimal digits and
    dashes. *)
Definition isUuidChar (c : code_unit) : bool :=
  (isDigit c || (97 <=? c) && (c <=? 102) || (c =? 45))%N.

(** Neither white space nor the escape character. *)
Definition plainChar (c : code_unit) : bool :=
  negb (isWhiteSpace c) && negb (c =? 27)%N.

(** A control sequence as the runner's pattern describes it: ESC, [[],
    parameter characters ([0-9;?]), intermediate characters (space to [/])
    and a final character ([@] to [~]). Escape sequences of other forms
    (operating system commands, character set selections, parameters with
    a colon) are not control sequences in this sense. *)
Definition escapeSequence (e : str) : Prop :=
  exists ps ims f,
    e = 27%N :: 91%N :: ps ++ ims ++ [f] /\
    forallb isParam ps = true /\
    forallb isIntermediate ims = true /\
    isFinal f = true.

(** [decorated s line]: [line] is [s] with control sequences put in
    anywhere, before, between and after its code units. *)
Inductive decorated : str -> str -> Prop :=
| decorated_nil : decorated [] []
| decorated_keep (c : code_unit) (s line : str) :
    decorated s line -> decorated (c :: s) (c :: line)
| decorated_escape (e s line : str) :
    escapeSequence e -> decorated s line -> decorated s (e ++ line).

(** No part of [s] is a control sequence. *)
Definition escapeFree (s : str) : Prop :=
  forall pre e post, escapeSequence e -> s <> pre ++ e ++ post.

(** [m] occurs in [s]. *)
Definition contains (s m : str) : Prop :=
  exists pre post, s = pre ++ m ++ post.

(** The boilerplate the runner recognises, on the trimmed line. *)
Definition boilerplate (t : str) : Prop :=
  In t [lit "PS1="; lit "stty -echo"; lit "stty echo"; lit "exit"; lit "logout"]
  \/ startsWith t (lit "printf '__COLAB_CLI_EXIT__") = true.

(** A [stdout] frame as it arrives. *)
Definition stdoutFrame (text : str) : option value :=
  Some (VArr [VStr (lit "stdout"); VStr text]).

(** The sentinel line with the given remainder, then the close. *)
Definition sentinelThenClose (w : world) (remainder : str)
  (later : list ws_event) : list ws_event :=
  Message (stdoutFrame (exitMarkerOf w ++ lit ":" ++ remainder ++ newline))
  :: Close :: later.

(** The text a message appends to the line buffer. *)
Definition stdoutText (data : option value) : str :=
  match data with
  | Some frame =>
      match getIndex frame 0 with
      | Some (VStr t) =>
          if str_eqb t (lit "stdout") then
            match ToString (orUndefined (getIndex frame 1)) with
            | Some text => text
            | None => []
            end
          else []
      | _ => []
      end
  | None => []
  end.

Definition streamText (messages : list (option value)) : str :=
  concat (List.map stdoutText messages).

Definition onMessages (verbose : bool) (exitMarker : str)
  (messages : list (option value)) (c : closure) : closure :=
  fold_left (fun c data => onMessage verbose exitMarker data c) messages c.

(** The tags this client acts on. *)
Definition meaningfulTag (tag : value) : bool :=
  match tag with
  | VStr t =>
      str_eqb t (lit "stdout") || str_eqb t (lit "stderr")
      || str_eqb t (lit "disconnect")
  | _ => false
  end.

(** The messages this client has no use for, and the warning each one
    causes: text that is not JSON, a value with no first element to read
    (the TypeError of indexing [null]), and a frame whose tag is not one of
    ["stdout"], ["stderr"] and ["disconnect"]. *)
Inductive notForThisClient : option value -> list action -> Prop :=
| malformed : notForThisClient None [parseWarning SyntaxError]
| untagged (frame : value) :
    getIndex frame 0 = None ->
    notForThisClient (Some frame) [parseWarning TypeError]
| unknownTag (frame tag : value) :
    getIndex frame 0 = Some tag ->
    meaningfulTag tag = false ->
    notForThisClient (Some frame) [].

(** The terminal path of the websocket URL, when step (1) succeeds. *)
Definition terminalPath (w : world) : option str :=
  match fetched w with
  | Response true _ (Some json) =>
      match getNamed json (lit "name") with
      | Some name => ToString name
      | None => None
      end
  | _ => None
  end.

(** What [run] has done when the socket is open. *)
Definition prelude (self : runner) (command path : str) : list action :=
  (if verbose self
   then [ConsoleLog (lit "Running remote command on " ++ label self
                       ++ lit ": " ++ command)]
   else []) ++
  [HttpPost (lit "api/terminals");
   WsConnect (lit "terminals/websocket/" ++ path)].

Definition usesSocket (a : action) : bool :=
  match a with
  | WsConnect _ | WsSend _ => true
  | _ => false
  end.

(** *** Further vocabulary *)

(** The actions that reach the network. *)
Definition isNetwork (a : action) : bool :=
  match a with
  | HttpPost _ | WsConnect _ | WsSend _ => true
  | _ => false
  end.

Definition isStdoutWrite (a : action) : bool :=
  match a with
  | StdoutWrite _ => true
  | _ => false
  end.

(** A call of [process.stderr.write]. The warnings of [console.warn], which
    Node sends to the same stream, are the separate action [ConsoleWarn]
    and are not counted here. *)
Definition isStderrWrite (a : action) : bool :=
  match a with
  | StderrWrite _ => true
  | _ => false
  end.

(** What a message does besides feeding the line buffer. *)
Definition messageActions (verbose : bool) (data : option value) : list action :=
  match data with
  | None => [parseWarning SyntaxError]
  | Some frame =>
      match getIndex frame 0 with
      | None => [parseWarning TypeError]
      | Some (VStr t) =>
          if str_eqb t (lit "stdout") then
            match ToString (orUndefined (getIndex frame 1)) with
            | Some _ => []
            | None => [parseWarning TypeError]
            end
          else if str_eqb t (lit "stderr") then
            match orUndefined (getIndex frame 1) with
            | VStr text => [StderrWrite text]
            | _ => [parseWarning TypeError]
            end
          else if str_eqb t (lit "disconnect") then
            if verbose
            then [ConsoleLog (lit "Remote runtime disconnected.")]
            else []
          else []
      | Some _ => []
      end
  end.

(** The write a [stderr] frame with a string payload asks for. *)
Definition stderrOf (data : option value) : list action :=
  match data with
  | Some frame =>
      match getIndex frame 0 with
      | Some (VStr t) =>
          if str_eqb t (lit "stderr") then
            match orUndefined (getIndex frame 1) with
            | VStr text => [StderrWrite text]
            | _ => []
            end
          else []
      | _ => []
      end
  | None => []
  end.

Definition addActions (l : list action) (st : sink) : sink :=
  {| capturedExitCode := capturedExitCode st; trace := trace st ++ l |}.

(** The exit code a line carries, if it is a sentinel with an integer. *)
Definition sentinelCode (exitMarker line : str) : option number :=
  if isSentinel exitMarker line
  then parseInt10 (sentinelRemainder exitMarker line)
  else None.

(** The elements of the array [streamCommand] joins into the payload. *)
Definition payloadLines (exitMarker command : str) : list str :=
  [lit "stty -echo";
   lit "PS1=";
   command;
   lit "__COLAB_CLI_STATUS=$?";
   lit "stty echo";
   lit "printf '" ++ exitMarker ++ lit ":%s\n' "
     ++ quote ++ lit "$__COLAB_CLI_STATUS" ++ quote;
   lit "exit";
   []].

(** The lines of the payload whose echo the runner hides. *)
Definition hiddenPlumbing (exitMarker : str) : list str :=
  [lit "stty -echo";
   lit "PS1=";
   lit "stty echo";
   lit "printf '" ++ exitMarker ++ lit ":%s\n' "
     ++ quote ++ lit "$__COLAB_CLI_STATUS" ++ quote;
   lit "exit"].

(** A [stderr] frame as it arrives. *)
Definition stderrFrame (text : str) : option value :=
  Some (VArr [VStr (lit "stderr"); VStr text]).

(** The messages that arrive before the promise settles. *)
Fixpoint deliveredMessages (events : list ws_event) : list (option value) :=
  match events with
  | Message data :: rest => data :: deliveredMessages rest
  | _ => []
  end.

(** The messages the ["message"] listener hears, before and after the
    promise settles, until an ["error"] event finds no listener. *)
Fixpoint heard (events : list ws_event) (errorListener : bool)
  : list (option value) :=
  match events with
  | [] => []
  | Message data :: rest => data :: heard rest errorListener
  | Close :: rest => heard rest errorListener
  | SocketError _ :: rest => if errorListener then heard rest false else []
  end.

(** *** Sample runs *)

Definition uuid0 : str := lit "123e4567-e89b-42d3-a456-426614174000".
Definition marker0 : str := EXIT_SENTINEL_PREFIX ++ uuid0.

Definition quiet : runner :=
  {| verbose := false; label := lit "gpu"; proxyUrlValid := true |}.
Definition loud : runner :=
  {| verbose := true; label := lit "gpu"; proxyUrlValid := true |}.

Definition created : fetch_result :=
  Response true (lit "OK") (Some (VObj [(lit "name", VStr (lit "1"))])).

Definition okWorld (evs : list ws_event) : world :=
  {| fetched := created; opened := None; uuid := uuid0; events := evs |}.

Definition refusedWorld : world :=
  {| fetched := Response false (lit "Forbidden") None;
     opened := None; uuid := uuid0; events := [] |}.

Definition sink0 : sink := {| capturedExitCode := None; trace := [] |}.

(** ESC [ 0 m and ESC [ 1 ; 3 2 m *)
Definition sgrReset : str := 27%N :: lit "[0m".
Definition sgrGreen : str := 27%N :: lit "[1;32m".

Definition resizeFrame : value :=
  VArr [VStr (lit "set_size"); VNum (lit "24"); VNum (lit "80");
        VNum (lit "0"); VNum (lit "0")].

(** ** The configuration loader (config.ts)

    [loadConfig] looks for a configuration file in a fixed order, falls
    back to the environment, and settles the storage directory. What the
    operating system and the libraries answer is a parameter: the file
    system is taken not to change during the call. [os.homedir()] is asked
    several times and reads the environment, which [dotenv] changes in
    between: its answer is a function of the environment. *)

Module Config.

(** What [ConfigSchema.parse] returns. *)
Record parsedConfig := {
  clientId : str;
  clientSecret : str;
  colabApiDomain : str;
  colabGapiDomain : str;
  storageDir : option str
}.

(** [CliConfig]: the same with the storage directory settled. *)
Record cliConfig := {
  parsed : parsedConfig;
  resolvedStorageDir : str
}.

(** An issue of a [ZodError], as far as [buildFriendlyError] reads it. *)
Record issue := {
  path : list str;
  message : str
}.

(** How [fs.readFile] ends: the error with code [ENOENT], another error
    with its message, or the text of the file. *)
Inductive read_result :=
| ENOENT
| ReadError (message : str)
| Content (raw : str).

Record system := {
  cwd : str;                                  (* [process.cwd()] *)
  homedir : (str -> option str) -> str;       (* [os.homedir()], which reads the environment *)
  pathJoin : list str -> str;                 (* [path.join] *)
  environment : str -> option str;            (* [process.env] at the start *)
  dotenvFile : str -> str -> option str;      (* the variables [dotenv] reads in a file *)
  readFile : str -> read_result;
  jsonParse : str -> str + value;             (* [JSON.parse]: the message of its error, or the value *)
  schema : value -> list issue + parsedConfig; (* [ConfigSchema.parse]: the issues, or the result *)
  accessible : str -> bool;                   (* whether [fs.access] succeeds *)
  mkdir : str -> option exn                   (* the error of [fs.mkdir], if any *)
}.

(** What the loader asks of the file system, in order. *)
Inductive fsAction :=
| DotenvConfig (path : str)
| ReadFile (path : str)
| Access (path : str)
| Mkdir (path : str).

(** The home directory [loadEnvFiles] sees: no [.env] file is loaded yet. *)
Definition homeBefore (sys : system) : str := homedir sys (environment sys).

Definition envFiles (sys : system) : list str :=
  [pathJoin sys [cwd sys; lit ".env"];
   pathJoin sys [homeBefore sys; lit ".config"; lit "cgpu"; lit ".env"];
   pathJoin sys [homeBefore sys; lit ".config"; lit "colab-cli"; lit ".env"]].

(** [dotenv.config({ path, override: false })]: a variable of the file is
    set only when the environment does not have it yet. *)
Definition dotenvConfig (sys : system) (file : str)
  (env : str -> option str) : str -> option str :=
  fun key =>
    match env key with
    | Some v => Some v
    | None => dotenvFile sys file key
    end.

(** [loadEnvFiles]: the environment after it. *)
Definition loadEnvFiles (sys : system) : str -> option str :=
  fold_left (fun env file => dotenvConfig sys file env) (envFiles sys)
    (environment sys).

(** The home directory the rest of [loadConfig] sees: [dotenv] has written
    the variables of the [.env] files into [process.env]. *)
Definition homeAfter (sys : system) : str := homedir sys (loadEnvFiles sys).

Definition bullet : str := [8226%N].

Definition renderIssue (i : issue) : str :=
  (match join (lit ".") (path i) with
   | [] => lit "root"
   | p => p
   end) ++ lit ": " ++ message i.

Definition buildFriendlyError (issues : list issue) : str :=
  join newline
    [lit "Missing Colab OAuth credentials.";
     lit "Provide COLAB_CLIENT_ID and COLAB_CLIENT_SECRET via:";
     lit "  " ++ bullet ++ lit " Environment variables (e.g. in a .env file)";
     lit "  " ++ bullet
       ++ lit " or cgpu.config.json / ~/.config/cgpu/config.json (legacy colab-cli.* files are still supported)";
     lit "Validation errors: " ++ join (lit "; ") (List.map renderIssue issues)].

(** [.filter(Boolean)] on strings: the empty string goes. *)
Definition truthy (s : str) : bool :=
  match s with
  | [] => false
  | _ => true
  end.

Definition searchOrder (sys : system) (customPath : option str) : list str :=
  filter truthy
    ((match customPath with Some p => [p] | None => [] end) ++
     [pathJoin sys [cwd sys; lit "cgpu.config.json"];
      pathJoin sys [cwd sys; lit "colab-cli.config.json"];
      pathJoin sys [homeAfter sys; lit ".config"; lit "cgpu"; lit "config.json"];
      pathJoin sys [homeAfter sys; lit ".config"; lit "colab-cli"; lit "config.json"]]).

(** How the [for] loop ends. *)
Inductive search_result :=
| Found (c : parsedConfig)
| NotFound
| Failed (err : exn).

Definition readFailure (candidate message : str) : exn :=
  Error (lit "Failed to read config at " ++ candidate ++ lit ": " ++ message).

Fixpoint search (sys : system) (candidates : list str) (t : list fsAction)
  : search_result * list fsAction :=
  match candidates with
  | [] => (NotFound, t)
  | candidate :: rest =>
      let t1 := t ++ [ReadFile candidate] in
      match readFile sys candidate with
      | ENOENT => search sys rest t1
      | ReadError message => (Failed (readFailure candidate message), t1)
      | Content raw =>
          match jsonParse sys raw with
          | inl message => (Failed (readFailure candidate message), t1)
          | inr json =>
              match schema sys json with
              | inl issues => (Failed (Error (buildFriendlyError issues)), t1)
              | inr c => (Found c, t1)
              end
          end
      end
  end.

Definition orElse (o : option str) (default : str) : str :=
  match o with
  | Some v => v
  | None => default
  end.

(** The object built from the environment when no file was found. *)
Definition envConfig (env : str -> option str) : value :=
  VObj
    [(lit "clientId", VStr (orElse (env (lit "COLAB_CLIENT_ID")) []));
     (lit "clientSecret", VStr (orElse (env (lit "COLAB_CLIENT_SECRET")) []));
     (lit "colabApiDomain",
      VStr (orElse (env (lit "COLAB_API_DOMAIN"))
              (lit "https://colab.research.google.com")));
     (lit "colabGapiDomain",
      VStr (orElse (env (lit "COLAB_GAPI_DOMAIN"))
              (lit "https://colab.googleapis.com")));
     (lit "storageDir",
      match env (lit "COLAB_STATE_DIR") with
      | Some v => VStr v
      | None => VUndefined
      end)].

Definition storageCandidates (sys : system) : str * str :=
  (pathJoin sys [homeAfter sys; lit ".config"; lit "cgpu"],
   pathJoin sys [homeAfter sys; lit ".config"; lit "colab-cli"]).

Definition resolveStorageDir (sys : system) (preferred : option str)
  (t : list fsAction) : str * list fsAction :=
  match preferred with
  | Some (c :: p) => (c :: p, t)
  | _ =>
      let (first, second) := storageCandidates sys in
      let t1 := t ++ [Access first] in
      if accessible sys first then (first, t1)
      else
        let t2 := t1 ++ [Access second] in
        if accessible sys second then (second, t2)
        else (first, t2)
  end.

Definition finish (sys : system) (c : parsedConfig) (t : list fsAction)
  : (exn + cliConfig) * list fsAction :=
  let (dir, t1) := resolveStorageDir sys (storageDir c) t in
  let t2 := t1 ++ [Mkdir dir] in
  match mkdir sys dir with
  | Some err => (inl err, t2)
  | None => (inr {| parsed := c; resolvedStorageDir := dir |}, t2)
  end.

Definition loadConfig (sys : system) (customPath : option str)
  : (exn + cliConfig) * list fsAction :=
  let env := loadEnvFiles sys in
  let t0 := List.map DotenvConfig (envFiles sys) in
  match search sys (searchOrder sys customPath) t0 with
  | (Failed err, t) => (inl err, t)
  | (Found c, t) => finish sys c t
  | (NotFound, t) =>
      match schema sys (envConfig env) with
      | inl issues => (inl (Error (buildFriendlyError issues)), t)
      | inr c => finish sys c t
      end
  end.

Definition isMkdir (a : fsAction) : bool :=
  match a with
  | Mkdir _ => true
  | _ => false
  end.

Definition isReadFile (a : fsAction) : bool :=
  match a with
  | ReadFile _ => true
  | _ => false
  end.

(** The same system with another environment and other [.env] files.
    [os.homedir()] is the same function of the environment: its answer
    changes with the environment where it reads it ([HOME]). *)
Definition withEnvironment (sys : system) (env : str -> option str)
  (dotenv : str -> str -> option str) : system :=
  {| cwd := cwd sys;
     homedir := homedir sys;
     pathJoin := pathJoin sys;
     environment := env;
     dotenvFile := dotenv;
     readFile := readFile sys;
     jsonParse := jsonParse sys;
     schema := schema sys;
     accessible := accessible sys;
     mkdir := mkdir sys |}.

(** *** A sample system: one valid file in the home directory *)

Definition sampleConfig : parsedConfig :=
  {| clientId := lit "id"; clientSecret := lit "secret";
     colabApiDomain := lit "https://colab.research.google.com";
     colabGapiDomain := lit "https://colab.googleapis.com";
     storageDir := None |}.

Definition homeConfigPath : str := lit "/home/u/.config/cgpu/config.json".

Definition sampleSystem : system :=
  {| cwd := lit "/work";
     homedir := fun env => orElse (env (lit "HOME")) (lit "/home/u");
     pathJoin := join (lit "/");
     environment := fun _ => None;
     dotenvFile := fun _ _ => None;
     readFile := fun p => if str_eqb p homeConfigPath
                          then Content (lit "{}") else ENOENT;
     jsonParse := fun raw => inr (VObj []);
     schema := fun _ => inr sampleConfig;
     accessible := fun p => str_eqb p (lit "/home/u/.config/colab-cli");
     mkdir := fun _ => None |}.

End Config.

(** ** Strings *)

(** [lia] over lengths, whichever name the element type goes by. *)
Ltac str_lia := unfold len, str, code_unit in *; lia.

Lemma str_eqb_eq (a b : str) : str_eqb a b = true <-> a = b.
Proof.
  revert b; induction a as [|x a IH]; intros [|y b]; simpl;
    try (split; [discriminate | congruence]); try tauto.
  rewrite andb_true_iff, N.eqb_eq, IH. split.
  - intros [-> ->]; reflexivity.
  - intros E; injection E; tauto.
Qed.

Lemma str_eqb_refl (a : str) : str_eqb a a = true.
Proof. apply str_eqb_eq; reflexivity. Qed.

Lemma startsWith_app (p t : str) : startsWith (p ++ t) p = true.
Proof.
  induction p as [|y p IH]; simpl; [reflexivity|].
  rewrite N.eqb_refl; exact IH.
Qed.

Lemma startsWith_inv (s p : str) :
  startsWith s p = true -> exists t, s = p ++ t.
Proof.
  revert s; induction p as [|y p IH]; intros s H; simpl in *.
  - exists s; reflexivity.
  - destruct s as [|x s]; [discriminate|].
    apply andb_true_iff in H as [Hx Hs]. apply N.eqb_eq in Hx; subst y.
    destruct (IH _ Hs) as [t ->]. exists t; reflexivity.
Qed.

Lemma startsWith_nil_l (p : str) : p <> [] -> startsWith [] p = false.
Proof. destruct p; [congruence | reflexivity]. Qed.

Lemma len_app (a b : str) : len (a ++ b) = (len a + len b)%Z.
Proof. unfold len; rewrite length_app; lia. Qed.

Lemma slice_to (a b : str) : slice (a ++ b) 0 (Some (len a)) = a.
Proof.
  unfold slice, clamp_index, len. rewrite length_app.
  replace (0 <? 0)%Z with false by reflexivity.
  destruct (Z.ltb_spec (Z.of_nat (List.length a)) 0) as [H|_]; [lia|].
  rewrite Z.min_l by lia. rewrite Z.min_l by lia.
  simpl. rewrite Z.sub_0_r, Nat2Z.id.
  rewrite firstn_app, firstn_all, Nat.sub_diag. simpl. apply app_nil_r.
Qed.

Lemma slice_from (a b : str) : slice (a ++ b) (len a) None = b.
Proof.
  unfold slice, clamp_index, len. rewrite length_app.
  destruct (Z.ltb_spec (Z.of_nat (List.length a)) 0) as [H|_]; [lia|].
  rewrite Z.min_l by lia. rewrite Nat2Z.id.
  rewrite skipn_app, skipn_all, Nat.sub_diag. simpl.
  apply firstn_all2. lia.
Qed.

Lemma slice_after (a : str) (c : code_unit) (b : str) :
  slice (a ++ c :: b) (len a + 1) None = b.
Proof.
  replace (a ++ c :: b) with ((a ++ [c]) ++ b) by (rewrite <- app_assoc; reflexivity).
  replace (len a + 1)%Z with (len (a ++ [c])) by (rewrite len_app; reflexivity).
  apply slice_from.
Qed.

Lemma indexOf_from_none (s : str) (i : Z) :
  noNewline s -> indexOf_from s newline i = (-1)%Z.
Proof.
  revert i; induction s as [|c s IH]; intros i H; simpl; [reflexivity|].
  destruct (N.eqb_spec c 10) as [->|_]; [exfalso; apply H; left; reflexivity|].
  simpl. apply IH. intros F; apply H; right; exact F.
Qed.

Lemma indexOf_from_found (a b : str) (i : Z) :
  noNewline a -> indexOf_from (a ++ 10%N :: b) newline i = (i + len a)%Z.
Proof.
  revert i; induction a as [|c a IH]; intros i H; simpl.
  - unfold len; simpl; lia.
  - destruct (N.eqb_spec c 10) as [->|_]; [exfalso; apply H; left; reflexivity|].
    simpl. rewrite IH by (intros F; apply H; right; exact F).
    unfold len; simpl length. lia.
Qed.

(** ** Lines *)

Lemma noNewline_check (s : str) :
  forallb (fun c => negb (c =? 10)%N) s = true -> noNewline s.
Proof.
  induction s as [|c s IH]; simpl; intros H; [intros []|].
  apply andb_true_iff in H as [Hc Hs]. intros [F|F].
  - subst c. discriminate.
  - exact (IH Hs F).
Qed.

Lemma splitLines_noNewline (s : str) : noNewline s -> splitLines s = ([], s).
Proof.
  induction s as [|c s IH]; intros H; simpl; [reflexivity|].
  rewrite IH by (intros F; apply H; right; exact F).
  destruct (N.eqb_spec c 10) as [->|_]; [exfalso; apply H; left; reflexivity|].
  reflexivity.
Qed.

Lemma splitLines_line (a b : str) :
  noNewline a ->
  splitLines (a ++ 10%N :: b) = (a :: fst (splitLines b), snd (splitLines b)).
Proof.
  induction a as [|c a IH]; intros H; simpl.
  - destruct (splitLines b); reflexivity.
  - rewrite IH by (intros F; apply H; right; exact F).
    destruct (N.eqb_spec c 10) as [->|_]; [exfalso; apply H; left; reflexivity|].
    reflexivity.
Qed.

(** Every text either has no newline or starts with a complete line. *)
Lemma first_line (s : str) :
  noNewline s \/ exists a b, s = a ++ 10%N :: b /\ noNewline a.
Proof.
  induction s as [|c s IH].
  - left; intros [].
  - destruct (N.eqb_spec c 10) as [->|Hc].
    + right; exists [], s; split; [reflexivity | intros []].
    + destruct IH as [H | (a & b & -> & Ha)].
      * left; intros [F|F]; [congruence | exact (H F)].
      * right; exists (c :: a), b; split; [reflexivity|].
        intros [F|F]; [congruence | exact (Ha F)].
Qed.

Lemma splitLines_rest_noNewline (s : str) : noNewline (snd (splitLines s)).
Proof.
  induction s as [|c s IH]; simpl; [intros []|].
  destruct (splitLines s) as [ls r]; simpl in IH.
  destruct (N.eqb_spec c 10) as [->|Hc]; [exact IH|].
  destruct ls; simpl; [|exact IH].
  intros [F|F]; [congruence | exact (IH F)].
Qed.

Lemma splitLines_app (a b : str) :
  splitLines (a ++ b) =
  (fst (splitLines a) ++ fst (splitLines (snd (splitLines a) ++ b)),
   snd (splitLines (snd (splitLines a) ++ b))).
Proof.
  induction a as [|c a IH]; simpl.
  - destruct (splitLines b); reflexivity.
  - rewrite IH. destruct (splitLines a) as [ls r]; simpl.
    destruct (N.eqb_spec c 10) as [->|Hc]; [reflexivity|].
    destruct ls as [|l ls]; simpl.
    + destruct (N.eqb_spec c 10); [congruence|].
      destruct (splitLines (r ++ b)) as [ls' r']; simpl.
      destruct ls'; reflexivity.
    + reflexivity.
Qed.

Lemma splitLines_joinLines (lines : list str) (partial : str) :
  Forall noNewline lines -> noNewline partial ->
  splitLines (joinLines lines partial) = (lines, partial).
Proof.
  unfold joinLines. intros Hl Hp; induction Hl as [|l ls Hl _ IH]; simpl.
  - apply splitLines_noNewline; exact Hp.
  - rewrite <- !app_assoc. simpl. rewrite splitLines_line by exact Hl.
    rewrite IH; reflexivity.
Qed.

Lemma joinLines_splitLines (s : str) :
  joinLines (fst (splitLines s)) (snd (splitLines s)) = s.
Proof.
  unfold joinLines. induction s as [|c s IH]; simpl; [reflexivity|].
  destruct (splitLines s) as [ls r]; simpl in *.
  destruct (N.eqb_spec c 10) as [->|Hc]; simpl; [congruence|].
  destruct ls; simpl in *; congruence.
Qed.

Lemma splitLines_lines_noNewline (s : str) :
  Forall noNewline (fst (splitLines s)).
Proof.
  induction s as [|c s IH]; simpl; [constructor|].
  destruct (splitLines s) as [ls r]; simpl in *.
  destruct (N.eqb_spec c 10) as [->|Hc]; simpl.
  - constructor; [intros [] | exact IH].
  - destruct ls; simpl; [constructor|].
    inversion IH; subst. constructor; [|assumption].
    intros [F|F]; [congruence | auto].
Qed.

Section LineProcessorFacts.

Variable St : Type.
Variable flush : str -> St -> St.

(** The loop hands the callback the complete lines of the buffer, in
    order, and leaves the rest. *)
Lemma drain_loop_spec (fuel : nat) (buffer : str) (st : St) :
  (List.length buffer < fuel)%nat ->
  drain_loop flush fuel buffer st =
  (snd (splitLines buffer), flushAll flush (fst (splitLines buffer)) st).
Proof.
  revert buffer st; induction fuel as [|fuel IH]; intros buffer st Hf; [lia|].
  simpl. unfold indexOf.
  destruct (first_line buffer) as [H | (a & b & -> & Ha)].
  - rewrite indexOf_from_none by exact H. simpl.
    rewrite splitLines_noNewline by exact H. reflexivity.
  - rewrite indexOf_from_found by exact Ha. rewrite Z.add_0_l.
    destruct (Z.eqb_spec (len a) (-1)) as [E|_]; [unfold len in E; lia|].
    rewrite slice_to, slice_after, splitLines_line by exact Ha.
    rewrite IH by (rewrite length_app in Hf; simpl in Hf; str_lia).
    reflexivity.
Qed.

Lemma drain_spec (buffer : str) (st : St) :
  drain flush buffer st =
  (snd (splitLines buffer), flushAll flush (fst (splitLines buffer)) st).
Proof. apply drain_loop_spec; lia. Qed.

Lemma flushAll_app (l1 l2 : list str) (st : St) :
  flushAll flush (l1 ++ l2) st = flushAll flush l2 (flushAll flush l1 st).
Proof. apply fold_left_app. Qed.

Lemma feed_spec (text buffer : str) (st : St) :
  feed flush text (buffer, st) =
  (snd (splitLines (buffer ++ text)),
   flushAll flush (fst (splitLines (buffer ++ text))) st).
Proof. unfold feed; simpl. apply drain_spec. Qed.

Lemma feedAll_spec (chunks : list str) (buffer : str) (st : St) :
  noNewline buffer ->
  feedAll flush chunks (buffer, st) =
  (snd (splitLines (buffer ++ concat chunks)),
   flushAll flush (fst (splitLines (buffer ++ concat chunks))) st).
Proof.
  revert buffer st; induction chunks as [|c cs IH]; intros buffer st Hb.
  - simpl. rewrite app_nil_r, splitLines_noNewline by exact Hb. reflexivity.
  - change (feedAll flush (c :: cs) (buffer, st))
      with (feedAll flush cs (feed flush c (buffer, st))).
    rewrite feed_spec, IH by apply splitLines_rest_noNewline. simpl concat.
    rewrite app_assoc, (splitLines_app (buffer ++ c)). cbn [fst snd].
    rewrite flushAll_app. reflexivity.
Qed.

End LineProcessorFacts.

(** ** [flushLine] *)

Lemma marker_colon_not_nil (exitMarker : str) : exitMarker ++ lit ":" <> [].
Proof. destruct exitMarker; discriminate. Qed.

Lemma shouldSuppressLine_spec (t exitMarker : str) :
  shouldSuppressLine t exitMarker = true <->
  startsWith t (exitMarker ++ lit ":") = true \/ boilerplate t.
Proof.
  unfold shouldSuppressLine, boilerplate.
  destruct (startsWith t (exitMarker ++ lit ":")); [tauto|].
  destruct (startsWith t (lit "printf '__COLAB_CLI_EXIT__")); [tauto|].
  destruct (str_eqb t (lit "PS1=")) eqn:E1;
    [apply str_eqb_eq in E1; subst; simpl; tauto|].
  destruct (str_eqb t (lit "stty -echo")) eqn:E2;
    [apply str_eqb_eq in E2; subst; simpl; tauto|].
  destruct (str_eqb t (lit "stty echo")) eqn:E3;
    [apply str_eqb_eq in E3; subst; simpl; tauto|].
  destruct (str_eqb t (lit "exit")) eqn:E4;
    [apply str_eqb_eq in E4; subst; simpl; tauto|].
  destruct (str_eqb t (lit "logout")) eqn:E5;
    [apply str_eqb_eq in E5; subst; simpl; tauto|].
  split; [discriminate|].
  intros [F | [H | F]]; try discriminate.
  simpl in H.
  destruct H as [H | [H | [H | [H | [H | []]]]]]; subst t;
    rewrite str_eqb_refl in *; discriminate.
Qed.

Lemma shouldSuppressLine_false (t exitMarker : str) :
  shouldSuppressLine t exitMarker = false <->
  startsWith t (exitMarker ++ lit ":") = false /\ ~ boilerplate t.
Proof.
  pose proof (shouldSuppressLine_spec t exitMarker) as H.
  destruct (shouldSuppressLine t exitMarker),
    (startsWith t (exitMarker ++ lit ":")); intuition congruence.
Qed.

Section FlushFacts.

Variable verbose : bool.
Variable exitMarker : str.

Lemma flushLine_code (line : str) (st : sink) :
  capturedExitCode (flushLine verbose exitMarker line st) = stepCode exitMarker (capturedExitCode st) line.
Proof.
  unfold flushLine, stepCode, isSentinel, sentinelRemainder, detectionTarget.
  destruct (startsWith _ _).
  - destruct (parseInt10 _); reflexivity.
  - destruct (negb verbose && _); [reflexivity|].
    destruct (0 <? _)%Z; reflexivity.
Qed.

Lemma flushAll_code (lines : list str) (st : sink) :
  capturedExitCode (flushAll (flushLine verbose exitMarker) lines st) =
  fold_left (stepCode exitMarker) lines (capturedExitCode st).
Proof.
  revert st; induction lines as [|l ls IH]; intros st; [reflexivity|].
  change (flushAll (flushLine verbose exitMarker) (l :: ls) st)
    with (flushAll (flushLine verbose exitMarker) ls
            (flushLine verbose exitMarker l st)).
  rewrite IH, flushLine_code. reflexivity.
Qed.

Lemma stepCode_not_sentinel (lines : list str) (code : option number) :
  Forall (fun l => isSentinel exitMarker l = false) lines ->
  fold_left (stepCode exitMarker) lines code = code.
Proof.
  intros H; revert code; induction H as [|l ls Hl _ IH]; intros code; simpl;
    [reflexivity|].
  rewrite IH. unfold stepCode. rewrite Hl. reflexivity.
Qed.

(** An empty line changes nothing. *)
Lemma flushLine_nil (st : sink) : flushLine verbose exitMarker [] st = st.
Proof.
  unfold flushLine.
  change (withoutPrompt []) with (@nil code_unit).
  change (trim []) with (@nil code_unit).
  rewrite (startsWith_nil_l (marker_colon_not_nil exitMarker)).
  assert (shouldSuppressLine [] exitMarker = false) as ->.
  { unfold shouldSuppressLine.
    rewrite (startsWith_nil_l (marker_colon_not_nil exitMarker)). reflexivity. }
  rewrite andb_false_r. destruct verbose; reflexivity.
Qed.

(** A flushed line writes at most once, and only to standard output. *)
Lemma flushLine_trace (line : str) (st : sink) :
  trace (flushLine verbose exitMarker line st) = trace st \/
  exists text, text <> [] /\
    trace (flushLine verbose exitMarker line st) = trace st ++ [StdoutWrite (text ++ newline)].
Proof.
  unfold flushLine.
  destruct (startsWith _ _).
  - left. destruct (parseInt10 _); reflexivity.
  - destruct (negb verbose && _); [left; reflexivity|].
    destruct (Z.ltb_spec 0 (len (if negb verbose then withoutPrompt line else line)))
      as [H|H]; [|left; reflexivity].
    right. eexists; split; [|reflexivity].
    intros E; rewrite E in H; unfold len in H; simpl in H; lia.
Qed.

(** *** The listeners *)

Lemma deliver_messages (messages : list (option value))
  (rest : list ws_event) (c : closure) :
  deliver verbose exitMarker (List.map Message messages ++ rest) c =
  deliver verbose exitMarker rest (onMessages verbose exitMarker messages c).
Proof.
  revert c; induction messages as [|m ms IH]; intros c; simpl; [reflexivity|].
  apply IH.
Qed.

Lemma onMessage_stdout (text : str) (c : closure) :
  onMessage verbose exitMarker (stdoutFrame text) c =
  feed (flushLine verbose exitMarker) text c.
Proof. reflexivity. Qed.

(** A message leaves the buffer and the exit code as the lines completed by
    its text leave them; everything else it does is console output. *)
Lemma onMessage_lines (data : option value) (c : closure) :
  noNewline (fst c) ->
  fst (onMessage verbose exitMarker data c) = snd (splitLines (fst c ++ stdoutText data)) /\
  capturedExitCode (snd (onMessage verbose exitMarker data c)) =
  fold_left (stepCode exitMarker) (fst (splitLines (fst c ++ stdoutText data)))
    (capturedExitCode (snd c)).
Proof.
  intros Hb.
  assert (Hidle : fst c = snd (splitLines (fst c ++ [])) /\
                  capturedExitCode (snd c) =
                  fold_left (stepCode exitMarker) (fst (splitLines (fst c ++ [])))
                    (capturedExitCode (snd c))).
  { rewrite app_nil_r, splitLines_noNewline by exact Hb. split; reflexivity. }
  unfold onMessage, stdoutText.
  destruct data as [frame|]; [|exact Hidle].
  destruct (getIndex frame 0) as [tag|]; [|exact Hidle].
  destruct tag; try exact Hidle.
  destruct (str_eqb s (lit "stdout")).
  - destruct (ToString _) as [text|]; [|exact Hidle].
    destruct c as [buffer st]. rewrite feed_spec. simpl.
    rewrite flushAll_code. split; reflexivity.
  - destruct (str_eqb s (lit "stderr")).
    + destruct (orUndefined _); exact Hidle.
    + destruct (str_eqb s (lit "disconnect")); [|exact Hidle].
      destruct verbose; exact Hidle.
Qed.

Lemma onMessages_lines (messages : list (option value)) (c : closure) :
  noNewline (fst c) ->
  fst (onMessages verbose exitMarker messages c) = snd (splitLines (fst c ++ streamText messages)) /\
  capturedExitCode (snd (onMessages verbose exitMarker messages c)) =
  fold_left (stepCode exitMarker) (fst (splitLines (fst c ++ streamText messages)))
    (capturedExitCode (snd c)).
Proof.
  revert c; induction messages as [|m ms IH]; intros c Hb.
  - simpl. rewrite app_nil_r, splitLines_noNewline by exact Hb.
    split; reflexivity.
  - change (onMessages verbose exitMarker (m :: ms) c) with (onMessages verbose exitMarker ms (onMessage verbose exitMarker m c)).
    destruct (onMessage_lines m c Hb) as [Eb Ec].
    destruct (IH (onMessage verbose exitMarker m c)) as [Eb' Ec'].
    { rewrite Eb. apply splitLines_rest_noNewline. }
    unfold streamText; simpl. fold (streamText ms).
    rewrite app_assoc, (splitLines_app (fst c ++ stdoutText m)). cbn [fst snd].
    rewrite fold_left_app, <- Ec, <- Eb. split; assumption.
Qed.

(** The close listener hands what is left in the buffer to [flushLine],
    empties the buffer, and falls back to 1 with a warning when no exit code
    was captured. *)
Lemma onClose_spec (buffer : str) (st : sink) :
  onClose verbose exitMarker (buffer, st) =
  let st1 := flushLine verbose exitMarker buffer st in
  match capturedExitCode st1 with
  | None => (Finite 1, ([], emit missingExitCodeWarning st1))
  | Some code => (code, ([], st1))
  end.
Proof.
  unfold onClose; simpl fst; simpl snd.
  destruct buffer as [|c b].
  - rewrite flushLine_nil. reflexivity.
  - reflexivity.
Qed.

End FlushFacts.

(** ** The handshake *)

Lemma trimStart_blank (s : str) :
  forallb isWhiteSpace s = true -> trimStart s = [].
Proof.
  induction s as [|c s IH]; simpl; [reflexivity|].
  intros H; apply andb_true_iff in H as [Hc Hs]. rewrite Hc. exact (IH Hs).
Qed.

Lemma trim_blank (s : str) : forallb isWhiteSpace s = true -> trim s = [].
Proof. intros H. unfold trim. rewrite trimStart_blank by exact H. reflexivity. Qed.

Lemma run_streams (self : runner) (w : world) (command path : str)
  (t : list action) :
  trim command <> [] ->
  proxyUrlValid self = true ->
  terminalPath w = Some path ->
  opened w = None ->
  run self w command t =
  streamCommand (verbose self) (exitMarkerOf w) (events w) command
    (t ++ prelude self command path).
Proof.
  intros Hc Hu Hp Ho. unfold run, terminalPath, prelude in *.
  destruct (trim command) as [|c0 rest]; [congruence|].
  unfold createRemoteTerminal, executeInTerminal, parseProxyUrl, bind.
  rewrite Hu, Ho.
  destruct (fetched w) as [|ok statusText body]; [discriminate|].
  destruct ok; [|discriminate].
  destruct body as [json|]; [|discriminate].
  destruct (getNamed json (lit "name")) as [name|]; [|discriminate].
  unfold tell, liftThrow; cbn [negb].
  destruct (verbose self); unfold ret; cbn beta iota; rewrite Hp; cbn beta iota;
    unfold exitMarkerOf; rewrite <- ?app_assoc; reflexivity.
Qed.

Lemma onMessages_stdout verbose exitMarker (chunks : list str) (c : closure) :
  onMessages verbose exitMarker (List.map stdoutFrame chunks) c
  = feedAll (flushLine verbose exitMarker) chunks c.
Proof.
  revert c; induction chunks as [|x xs IH]; intros c; [reflexivity|].
  simpl List.map.
  change (onMessages verbose exitMarker (?m :: ?ms) c)
    with (onMessages verbose exitMarker ms (onMessage verbose exitMarker m c)).
  rewrite onMessage_stdout, IH. reflexivity.
Qed.

Section TraceGrows.

Variable verbose : bool.
Variable exitMarker : str.

(** Nothing the listeners do is taken back. *)
Lemma flushLine_extends (line : str) (st : sink) :
  exists t, trace (flushLine verbose exitMarker line st) = trace st ++ t.
Proof.
  destruct (flushLine_trace verbose exitMarker line st) as [E | (x & _ & E)];
    rewrite E; [exists []; symmetry; apply app_nil_r | eexists; reflexivity].
Qed.

Lemma flushAll_extends (lines : list str) (st : sink) :
  exists t,
    trace (flushAll (flushLine verbose exitMarker) lines st) = trace st ++ t.
Proof.
  revert st; induction lines as [|l ls IH]; intros st.
  - exists []; symmetry; apply app_nil_r.
  - change (flushAll (flushLine verbose exitMarker) (l :: ls) st)
      with (flushAll (flushLine verbose exitMarker) ls
              (flushLine verbose exitMarker l st)).
    destruct (IH (flushLine verbose exitMarker l st)) as [t2 E2].
    destruct (flushLine_extends l st) as [t1 E1].
    exists (t1 ++ t2). rewrite E2, E1. symmetry; apply app_assoc.
Qed.

Lemma onMessage_extends (data : option value) (c : closure) :
  exists t, trace (snd (onMessage verbose exitMarker data c)) = trace (snd c) ++ t.
Proof.
  assert (Hidle : exists t, trace (snd c) = trace (snd c) ++ t)
    by (exists []; symmetry; apply app_nil_r).
  assert (Hemit : forall a, exists t, trace (snd (fst c, emit a (snd c)))
                                      = trace (snd c) ++ t)
    by (intros a; eexists; reflexivity).
  unfold onMessage, warnFrame.
  destruct data as [frame|]; [|apply Hemit].
  destruct (getIndex frame 0) as [tag|]; [|apply Hemit].
  destruct tag; try exact Hidle.
  destruct (str_eqb s (lit "stdout")).
  - destruct (ToString _) as [text|]; [|apply Hemit].
    destruct c as [buffer st]. rewrite feed_spec. apply flushAll_extends.
  - destruct (str_eqb s (lit "stderr")).
    + destruct (orUndefined _); apply Hemit.
    + destruct (str_eqb s (lit "disconnect")); [|exact Hidle].
      destruct verbose; [apply Hemit | exact Hidle].
Qed.

Lemma onMessages_extends (messages : list (option value)) (c : closure) :
  exists t,
    trace (snd (onMessages verbose exitMarker messages c)) = trace (snd c) ++ t.
Proof.
  revert c; induction messages as [|m ms IH]; intros c.
  - exists []; symmetry; apply app_nil_r.
  - change (onMessages verbose exitMarker (m :: ms) c)
      with (onMessages verbose exitMarker ms (onMessage verbose exitMarker m c)).
    destruct (IH (onMessage verbose exitMarker m c)) as [t2 E2].
    destruct (onMessage_extends m c) as [t1 E1].
    exists (t1 ++ t2). rewrite E2, E1. symmetry; apply app_assoc.
Qed.

End TraceGrows.

Lemma streamCommand_close verbose exitMarker
  (messages : list (option value)) (later : list ws_event)
  (command : str) (before : list action) (lines : list str) (partial : str) :
  streamText messages = joinLines lines partial ->
  Forall noNewline lines -> noNewline partial ->
  exists t,
    streamCommand verbose exitMarker
      (List.map Message messages ++ Close :: later) command before =
    match fold_left (stepCode exitMarker) (lines ++ [partial]) None with
    | None => (Resolved (Finite 1),
               before ++ WsSend (stdinFrame exitMarker command) :: t
                 ++ [missingExitCodeWarning])
    | Some code => (Resolved code,
                    before ++ WsSend (stdinFrame exitMarker command) :: t)
    end.
Proof.
  intros Ht Hl Hp. unfold streamCommand. rewrite deliver_messages.
  set (st0 := {| capturedExitCode := None;
                 trace := before ++ [WsSend (stdinFrame exitMarker command)] |}).
  destruct (onMessages_lines verbose exitMarker messages ([], st0)) as [Eb Ec];
    [intros []|].
  destruct (onMessages_extends verbose exitMarker messages ([], st0)) as [t1 Et].
  cbn [fst snd app] in Eb, Ec, Et.
  rewrite Ht, splitLines_joinLines in Eb, Ec by assumption.
  cbn [fst snd] in Eb, Ec.
  destruct (onMessages verbose exitMarker messages ([], st0)) as [buffer st].
  cbn [fst snd] in Eb, Ec, Et. subst buffer.
  change (capturedExitCode st0) with (@None number) in Ec.
  cbn [deliver]. rewrite onClose_spec. cbv zeta.
  destruct (flushLine_extends verbose exitMarker partial st) as [t2 Et2].
  pose proof (flushLine_code verbose exitMarker partial st) as Ec2.
  rewrite fold_left_app. cbn [fold_left]. rewrite <- Ec, <- Ec2.
  exists (t1 ++ t2).
  destruct (capturedExitCode (flushLine verbose exitMarker partial st));
    cbn [snd trace emit]; rewrite Et2, Et; unfold st0; cbn [trace];
    rewrite <- ?app_assoc; reflexivity.
Qed.

(** ** The line buffer does not depend on how the stream is cut *)

Lemma record_lines (ls acc : list str) :
  flushAll (fun line lines => lines ++ [line]) ls acc = acc ++ ls.
Proof.
  revert acc; induction ls as [|l ls IH]; intros acc.
  - symmetry; apply app_nil_r.
  - change (flushAll ?f (l :: ls) acc) with (flushAll f ls (acc ++ [l])).
    rewrite IH, <- app_assoc. reflexivity.
Qed.

Lemma completedLines_spec (chunks : list str) :
  completedLines chunks = splitLines (concat chunks).
Proof.
  unfold completedLines. rewrite feedAll_spec by (intros []).
  rewrite record_lines. simpl app.
  destruct (splitLines (concat chunks)) as [ls r]; reflexivity.
Qed.

(** C4. Feeding a text to the line buffer as one chunk or cut at arbitrary
    places into sub-chunks completes the same lines in the same order and
    leaves the same partial line, whatever the callback does with the lines
    and whatever partial line the buffer already holds. *)
Theorem chunking_boundary_invariance (St : Type) (flush : str -> St -> St)
  (text : str) (chunks : list str) (buffer : str) (st : St) :
  concat chunks = text ->
  noNewline buffer ->
  completedLines chunks = completedLines [text] /\
  feedAll flush chunks (buffer, st) = feedAll flush [text] (buffer, st).
Proof.
  intros <- Hb. split.
  - rewrite !completedLines_spec. simpl. rewrite app_nil_r. reflexivity.
  - rewrite !feedAll_spec by exact Hb. simpl. rewrite app_nil_r. reflexivity.
Qed.

Lemma chunking_boundary_invariance_witness :
  completedLines [lit "ab"; 10%N :: lit "c"; 10%N :: lit "d"]
  = completedLines [lit "ab" ++ 10%N :: lit "c" ++ 10%N :: lit "d"] /\
  completedLines [lit "ab" ++ 10%N :: lit "c" ++ 10%N :: lit "d"]
  = ([lit "ab"; lit "c"], lit "d").
Proof.
  split.
  - apply (chunking_boundary_invariance (fun line (n : nat) => S n)
             (text := lit "ab" ++ 10%N :: lit "c" ++ 10%N :: lit "d")
             [lit "ab"; 10%N :: lit "c"; 10%N :: lit "d"]
             (buffer := []) 0%nat).
    + reflexivity.
    + intros [].
  - reflexivity.
Defined.

(** ** Close *)

(** C7. When the channel closes after [stdout] frames whose text is the
    complete lines [lines] followed by an unterminated [partial], the
    runner has passed every complete line and then, once, the partial line
    to the same [flushLine]; the buffer is left empty. *)
Theorem close_flushes_partial_line (verbose : bool) (exitMarker : str)
  (chunks : list str) (later : list ws_event)
  (lines : list str) (partial : str) (st : sink) :
  Forall noNewline lines -> noNewline partial ->
  concat chunks = joinLines lines partial ->
  deliver verbose exitMarker
    (List.map Message (List.map stdoutFrame chunks) ++ Close :: later) ([], st) =
  let st1 := flushAll (flushLine verbose exitMarker) (lines ++ [partial]) st in
  match capturedExitCode st1 with
  | None => (Resolved (Finite 1), ([], emit missingExitCodeWarning st1))
  | Some code => (Resolved code, ([], st1))
  end.
Proof.
  intros Hl Hp Ht.
  rewrite deliver_messages, onMessages_stdout, feedAll_spec by (intros []).
  simpl app. rewrite Ht, splitLines_joinLines by assumption.
  cbn [fst snd deliver]. rewrite onClose_spec, flushAll_app. cbv zeta.
  change (flushAll (flushLine verbose exitMarker) [partial] ?s)
    with (flushLine verbose exitMarker partial s).
  destruct (capturedExitCode _); reflexivity.
Qed.

Lemma close_flushes_partial_line_witness :
  deliver false marker0
    (List.map Message (List.map stdoutFrame [lit "on"; lit "e" ++ newline ++ lit "two"])
       ++ [Close]) ([], sink0)
  = (Resolved (Finite 1),
     ([], {| capturedExitCode := None;
             trace := [StdoutWrite (lit "one" ++ newline);
                       StdoutWrite (lit "two" ++ newline);
                       missingExitCodeWarning] |})).
Proof.
  rewrite (@close_flushes_partial_line false marker0
             [lit "on"; lit "e" ++ newline ++ lit "two"] []
             [lit "one"] (lit "two") sink0).
  - reflexivity.
  - repeat constructor. apply noNewline_check; reflexivity.
  - apply noNewline_check; reflexivity.
  - reflexivity.
Defined.

(** C1. A run that reaches the stream and whose channel closes without a
    sentinel line among the lines received (the last, unterminated one
    included) returns exactly 1, and the last thing it does is to warn
    that no exit code was reported. *)
Theorem close_without_sentinel_returns_1 (self : runner) (w : world)
  (command path : str) (messages : list (option value))
  (later : list ws_event) (lines : list str) (partial : str) :
  trim command <> [] ->
  proxyUrlValid self = true ->
  terminalPath w = Some path ->
  opened w = None ->
  events w = List.map Message messages ++ Close :: later ->
  streamText messages = joinLines lines partial ->
  Forall noNewline lines -> noNewline partial ->
  Forall (fun l => isSentinel (exitMarkerOf w) l = false) (lines ++ [partial]) ->
  exists t,
    run self w command [] = (Resolved (Finite 1), t ++ [missingExitCodeWarning]).
Proof.
  intros Hc Hu Hp Ho He Ht Hl Hn Hs.
  rewrite (run_streams self w command [] Hc Hu Hp Ho), He.
  destruct (streamCommand_close (verbose self) (exitMarkerOf w) messages later
              command ([] ++ prelude self command path) Ht Hl Hn) as [t E].
  rewrite stepCode_not_sentinel in E by exact Hs.
  rewrite E. eexists. rewrite app_comm_cons, app_assoc. reflexivity.
Qed.

Lemma close_without_sentinel_returns_1_witness :
  exists t,
    run quiet (okWorld [Message (stdoutFrame (lit "hi" ++ newline ++ lit "exit"));
                        Message None; Close])
      (lit "echo hi") []
    = (Resolved (Finite 1), t ++ [missingExitCodeWarning]).
Proof.
  apply (@close_without_sentinel_returns_1 quiet
           (okWorld [Message (stdoutFrame (lit "hi" ++ newline ++ lit "exit"));
                     Message None; Close])
           (lit "echo hi") (lit "1")
           [stdoutFrame (lit "hi" ++ newline ++ lit "exit"); None] []
           [lit "hi"] (lit "exit")).
  - discriminate.
  - reflexivity.
  - reflexivity.
  - reflexivity.
  - reflexivity.
  - reflexivity.
  - repeat constructor. apply noNewline_check; reflexivity.
  - apply noNewline_check; reflexivity.
  - repeat constructor.
Defined.

(** ** Blank commands *)

(** C6. A command that is empty or made of white space only makes [run]
    fail with the empty-command error before it does anything: no request,
    no socket, no output. *)
Theorem blank_command_rejected (self : runner) (w : world) (command : str)
  (before : list action) :
  forallb isWhiteSpace command = true ->
  run self w command before =
  (Rejected number (Error (lit "Cannot run an empty command")), before).
Proof.
  intros H. unfold run. rewrite trim_blank by exact H. reflexivity.
Qed.

Lemma blank_command_rejected_witness :
  run loud (okWorld [Close]) (lit "  " ++ [9%N; 10%N]) [] =
  (Rejected number (Error (lit "Cannot run an empty command")), []).
Proof.
  apply (@blank_command_rejected loud (okWorld [Close]) (lit "  " ++ [9%N; 10%N]) []).
  reflexivity.
Defined.

(** ** Frames the client has no use for *)

(** C8. A frame whose tag is not one the client acts on changes nothing:
    not the line buffer, not the captured exit code, and nothing is
    printed. A message that is not JSON, or has no tag to read, leaves the
    buffer and the exit code alone as well and is reported by one warning.
    In every case the listener returns and the next event is delivered. *)
Theorem foreign_frames_are_skipped (verbose : bool) (exitMarker : str)
  (data : option value) (warnings : list action)
  (c : closure) (rest : list ws_event) :
  notForThisClient data warnings ->
  let c' := onMessage verbose exitMarker data c in
  fst c' = fst c /\
  capturedExitCode (snd c') = capturedExitCode (snd c) /\
  trace (snd c') = trace (snd c) ++ warnings /\
  deliver verbose exitMarker (Message data :: rest) c =
  deliver verbose exitMarker rest c'.
Proof.
  intros H; cbv zeta.
  assert (D : deliver verbose exitMarker (Message data :: rest) c =
              deliver verbose exitMarker rest (onMessage verbose exitMarker data c))
    by reflexivity.
  assert (E : onMessage verbose exitMarker data c =
              (fst c, {| capturedExitCode := capturedExitCode (snd c);
                         trace := trace (snd c) ++ warnings |})).
  { destruct H as [|frame H|frame tag H Htag]; unfold onMessage;
      try rewrite H; try reflexivity.
    assert (Hc : c = (fst c, {| capturedExitCode := capturedExitCode (snd c);
                                trace := trace (snd c) ++ [] |}))
      by (destruct c as [b [code tr]]; simpl; rewrite app_nil_r; reflexivity).
    destruct tag; try exact Hc.
    unfold meaningfulTag in Htag.
    apply orb_false_iff in Htag as [Htag H3].
    apply orb_false_iff in Htag as [H1 H2].
    rewrite H1, H2, H3. exact Hc. }
  rewrite D, E. repeat split.
Qed.

Lemma foreign_frames_are_skipped_witness :
  notForThisClient (Some resizeFrame) [] /\
  (let c' := onMessage false marker0 (Some resizeFrame) (lit "par", sink0) in
   fst c' = lit "par" /\
   capturedExitCode (snd c') = None /\
   trace (snd c') = [] ++ [] /\
   deliver false marker0 [Message (Some resizeFrame); Close] (lit "par", sink0) =
   deliver false marker0 [Close] c').
Proof.
  assert (H : notForThisClient (Some resizeFrame) [])
    by (apply (@unknownTag resizeFrame (VStr (lit "set_size"))); reflexivity).
  split; [exact H|].
  exact (@foreign_frames_are_skipped false marker0 (Some resizeFrame) []
           (lit "par", sink0) [Close] H).
Defined.

(** ** A refused terminal *)

(** C9. When the create-terminal request comes back with a non-success
    status, [run] fails and never touches the socket: nothing it has done
    is a websocket connection or a send. When the command is not blank and
    the proxy URL parses, the request was made and the error is the one
    [createRemoteTerminal] throws, with the status text. *)
Theorem refused_terminal_opens_no_socket (self : runner) (w : world)
  (command statusText : str) (body : option value) (before : list action) :
  fetched w = Response false statusText body ->
  exists err t,
    run self w command before = (Rejected number err, before ++ t) /\
    forallb (fun a => negb (usesSocket a)) t = true /\
    (trim command <> [] -> proxyUrlValid self = true ->
     err = Error (lit "Failed to create remote terminal: " ++ statusText) /\
     In (HttpPost (lit "api/terminals")) t).
Proof.
  intros H. unfold run.
  destruct (trim command) as [|c0 r].
  { exists (Error (lit "Cannot run an empty command")), [].
    rewrite app_nil_r. split; [reflexivity|]. split; [reflexivity|].
    intros F; congruence. }
  unfold createRemoteTerminal, parseProxyUrl, bind, tell, ret, throw.
  rewrite H. cbn [negb].
  destruct (verbose self), (proxyUrlValid self); cbn beta iota.
  - eexists; eexists. split; [rewrite <- !app_assoc; reflexivity|].
    split; [reflexivity|]. intros _ _. split; [reflexivity | simpl; tauto].
  - eexists; eexists. split; [reflexivity|].
    split; [reflexivity|]. intros _ F; discriminate.
  - eexists; eexists. split; [reflexivity|].
    split; [reflexivity|]. intros _ _. split; [reflexivity | simpl; tauto].
  - exists TypeError, []. rewrite app_nil_r. split; [reflexivity|].
    split; [reflexivity|]. intros _ F; discriminate.
Qed.

Lemma refused_terminal_opens_no_socket_witness :
  fetched refusedWorld = Response false (lit "Forbidden") None /\
  exists err t,
    run quiet refusedWorld (lit "nvidia-smi") [] = (Rejected number err, [] ++ t) /\
    forallb (fun a => negb (usesSocket a)) t = true /\
    (trim (lit "nvidia-smi") <> [] -> proxyUrlValid quiet = true ->
     err = Error (lit "Failed to create remote terminal: " ++ lit "Forbidden") /\
     In (HttpPost (lit "api/terminals")) t).
Proof.
  split; [reflexivity|].
  apply (@refused_terminal_opens_no_socket quiet refusedWorld
           (lit "nvidia-smi") (lit "Forbidden") None []).
  reflexivity.
Defined.

(** ** Blank lines *)

Lemma flushLine_blank (exitMarker line : str) (st : sink) :
  withoutPrompt line = [] -> flushLine false exitMarker line st = st.
Proof.
  intros H. unfold flushLine. rewrite H.
  change (trim []) with (@nil code_unit).
  rewrite (startsWith_nil_l (marker_colon_not_nil exitMarker)).
  destruct (shouldSuppressLine [] exitMarker); reflexivity.
Qed.

(** C10, as the code has it. With verbose mode off, a line that is empty
    once carriage returns, escape sequences and the prompt prefix are
    removed writes nothing. With verbose mode on the line is judged as
    received: every line that is not the sentinel (and a line that is empty
    once those are removed never is) is written as received, unless it is
    empty as received, which writes nothing. In both modes whatever
    [flushLine] writes to standard output is a non-empty text followed by a
    newline. *)
Theorem blank_lines_are_dropped (verbose : bool) (exitMarker line : str)
  (st : sink) :
  ((if verbose then line else withoutPrompt line) = [] ->
   flushLine verbose exitMarker line st = st) /\
  (isSentinel exitMarker line = false -> line <> [] ->
   flushLine true exitMarker line st
   = emit (StdoutWrite (line ++ newline)) st) /\
  (withoutPrompt line = [] -> isSentinel exitMarker line = false) /\
  (trace (flushLine verbose exitMarker line st) = trace st \/
   exists text, text <> [] /\
     trace (flushLine verbose exitMarker line st)
     = trace st ++ [StdoutWrite (text ++ newline)]).
Proof.
  split; [|split; [|split; [|apply flushLine_trace]]].
  - destruct verbose; intros H.
    + subst line. apply flushLine_nil.
    + apply flushLine_blank; exact H.
  - unfold isSentinel, detectionTarget, flushLine. intros -> Hne.
    cbn [negb andb]. destruct line as [|c l]; [congruence | reflexivity].
  - unfold isSentinel, detectionTarget. intros ->.
    change (trim []) with (@nil code_unit).
    apply startsWith_nil_l, marker_colon_not_nil.
Qed.

Lemma blank_lines_are_dropped_witness :
  withoutPrompt (lit "/# " ++ [13%N]) = [] /\
  flushLine false marker0 (lit "/# " ++ [13%N]) sink0 = sink0 /\
  flushLine true marker0 (lit "/# " ++ [13%N]) sink0
  = emit (StdoutWrite ((lit "/# " ++ [13%N]) ++ newline)) sink0.
Proof.
  split; [reflexivity|]. split.
  - apply (proj1 (blank_lines_are_dropped false marker0 (lit "/# " ++ [13%N]) sink0)).
    reflexivity.
  - apply (proj1 (proj2 (blank_lines_are_dropped false marker0
                           (lit "/# " ++ [13%N]) sink0))).
    + reflexivity.
    + discriminate.
Defined.

(** In verbose mode a line made of a carriage return, empty once the
    carriage return is removed, is written to standard output. *)
Lemma verbose_keeps_blank_line :
  withoutPrompt [13%N] = [] /\
  trace (flushLine true marker0 [13%N] sink0) = [StdoutWrite [13%N; 10%N]].
Proof. split; reflexivity. Qed.

(** ** Boilerplate *)

(** C3, as the code has it. With verbose mode off, a line that is not the
    sentinel writes nothing exactly when its trimmed text is recognised
    boilerplate (one of [PS1=], [stty -echo], [stty echo], [exit],
    [logout], or a text starting with [printf '__COLAB_CLI_EXIT__]) or the
    line is empty once carriage returns, escape sequences and the prompt
    prefix are removed; every other line is written, without them,
    followed by a newline. *)
Theorem suppression_rule (exitMarker line : str) (st : sink) :
  isSentinel exitMarker line = false ->
  (boilerplate (detectionTarget line) \/ withoutPrompt line = [] ->
   flushLine false exitMarker line st = st) /\
  (~ boilerplate (detectionTarget line) -> withoutPrompt line <> [] ->
   flushLine false exitMarker line st
   = emit (StdoutWrite (withoutPrompt line ++ newline)) st).
Proof.
  unfold isSentinel, detectionTarget. intros Hs. split.
  - intros [Hb | He]; [|apply flushLine_blank; exact He].
    unfold flushLine. rewrite Hs.
    assert (shouldSuppressLine (trim (withoutPrompt line)) exitMarker = true) as ->
      by (apply shouldSuppressLine_spec; right; exact Hb).
    reflexivity.
  - intros Hb He. unfold flushLine. rewrite Hs.
    assert (shouldSuppressLine (trim (withoutPrompt line)) exitMarker = false) as ->
      by (apply shouldSuppressLine_false; split; assumption).
    cbn [negb andb].
    destruct (Z.ltb_spec 0 (len (withoutPrompt line))) as [_|H]; [reflexivity|].
    destruct (withoutPrompt line); [congruence|].
    unfold len in H; simpl in H; lia.
Qed.

Lemma suppression_rule_witness :
  isSentinel marker0 (lit "/# logout") = false /\
  flushLine false marker0 (lit "/# logout") sink0 = sink0.
Proof.
  split; [reflexivity|].
  apply (proj1 (@suppression_rule marker0 (lit "/# logout") sink0 eq_refl)).
  left. left. simpl. tauto.
Defined.

(** A blank line is neither the sentinel nor boilerplate, and nothing is
    written for it; the echo of the status assignment the payload sends is
    written. *)
Lemma blank_line_not_emitted :
  isSentinel marker0 [13%N] = false /\
  shouldSuppressLine (detectionTarget [13%N]) marker0 = false /\
  ~ boilerplate (detectionTarget [13%N]) /\
  flushLine false marker0 [13%N] sink0 = sink0 /\
  flushLine false marker0 (lit "__COLAB_CLI_STATUS=$?") sink0
  = emit (StdoutWrite (lit "__COLAB_CLI_STATUS=$?" ++ newline)) sink0.
Proof.
  split; [reflexivity|]. split; [reflexivity|].
  split; [|split; reflexivity].
  intros H.
  assert (F : shouldSuppressLine (detectionTarget [13%N]) marker0 = true)
    by (apply shouldSuppressLine_spec; right; exact H).
  discriminate F.
Qed.

(** ** [parseInt] *)

Lemma trimStart_app (ws x : str) :
  forallb isWhiteSpace ws = true -> trimStart (ws ++ x) = trimStart x.
Proof.
  induction ws as [|c ws IH]; simpl; [reflexivity|].
  intros H; apply andb_true_iff in H as [Hc Hs]. rewrite Hc. exact (IH Hs).
Qed.

Lemma isDigit_facts (c : code_unit) :
  isDigit c = true ->
  isWhiteSpace c = false /\ (c =? 45)%N = false /\ (c =? 43)%N = false.
Proof.
  unfold isDigit, isWhiteSpace. intros H.
  apply andb_true_iff in H as [H1 H2].
  apply N.leb_le in H1. apply N.leb_le in H2.
  repeat split;
    repeat match goal with
      | |- (_ || _) = false => apply orb_false_iff; split
      | |- (_ && _) = false => apply andb_false_iff
      | |- (_ =? _)%N = false => apply N.eqb_neq; lia
      end;
    try (right; apply N.leb_gt; lia); try (left; apply N.leb_gt; lia).
Qed.

Lemma digits_run (ds rest : str) (count : nat) (acc : Z) :
  forallb isDigit ds = true ->
  startsWithDigit rest = false ->
  digits (ds ++ rest) count acc =
  ((count + List.length ds)%nat,
   fold_left (fun acc c => (10 * acc + (Z.of_N c - 48))%Z) ds acc).
Proof.
  revert count acc; induction ds as [|c ds IH]; intros count acc Hd Hr;
    cbn [app digits fold_left length].
  - rewrite Nat.add_0_r. destruct rest as [|c r]; [reflexivity|].
    cbn [startsWithDigit] in Hr. cbn [digits]. rewrite Hr. reflexivity.
  - cbn [forallb] in Hd. apply andb_true_iff in Hd as [Hc Hd]. rewrite Hc.
    rewrite IH by assumption. f_equal. lia.
Qed.

Lemma digits_none (rest : str) :
  startsWithDigit rest = false -> digits rest 0 0 = (0%nat, 0%Z).
Proof.
  destruct rest as [|c r]; [reflexivity|].
  cbn [startsWithDigit digits]. intros ->. reflexivity.
Qed.

(** [parseInt] reads the integer a text starts with. *)
Lemma parseInt10_leading (r : str) (n : number) :
  leadingInteger r n -> parseInt10 r = Some n.
Proof.
  intros [ws sign ds rest Hws Hsign Hne Hds Hrest].
  unfold parseInt10. rewrite trimStart_app by exact Hws.
  destruct ds as [|d ds]; [congruence|].
  pose proof Hds as Hds'. cbn [forallb] in Hds'.
  apply andb_true_iff in Hds' as [Hd _].
  destruct (isDigit_facts d Hd) as (Hw & H45 & H43).
  assert (Hrun : forall count,
             digits ((d :: ds) ++ rest) count 0 =
             ((count + S (List.length ds))%nat, decimal (d :: ds)))
    by (intros count; apply digits_run; assumption).
  destruct Hsign as [<- | [<- | [<- | []]]].
  - cbn [app trimStart]. rewrite Hw, H45, H43.
    change (d :: ds ++ rest) with ((d :: ds) ++ rest).
    rewrite (Hrun 0%nat). reflexivity.
  - change (trimStart (lit "+" ++ (d :: ds) ++ rest))
      with (43%N :: (d :: ds) ++ rest).
    cbv beta iota. change (43 =? 45)%N with false. change (43 =? 43)%N with true.
    cbv iota. rewrite (Hrun 0%nat). reflexivity.
  - change (trimStart (lit "-" ++ (d :: ds) ++ rest))
      with (45%N :: (d :: ds) ++ rest).
    cbv beta iota. change (45 =? 45)%N with true.
    cbv iota. rewrite (Hrun 0%nat). reflexivity.
Qed.

(** [parseInt] gives NaN on a text that does not start with an integer. *)
Lemma parseInt10_none (r : str) : noInteger r -> parseInt10 r = None.
Proof.
  intros [ws Hws | ws sign rest Hws Hsign Hrest | ws c rest Hws Hc Hd H43 H45];
    unfold parseInt10.
  - rewrite <- (app_nil_r ws), trimStart_app by exact Hws. reflexivity.
  - rewrite trimStart_app by exact Hws.
    destruct Hsign as [<- | [<- | []]].
    + change (trimStart (lit "+" ++ rest)) with (43%N :: rest).
      cbv beta iota. change (43 =? 45)%N with false. change (43 =? 43)%N with true.
      cbv iota. rewrite digits_none by exact Hrest. reflexivity.
    + change (trimStart (lit "-" ++ rest)) with (45%N :: rest).
      cbv beta iota. change (45 =? 45)%N with true.
      cbv iota. rewrite digits_none by exact Hrest. reflexivity.
  - rewrite trimStart_app by exact Hws. cbn [trimStart]. rewrite Hc.
    apply N.eqb_neq in H43, H45. rewrite H43, H45. cbn [digits]. rewrite Hd.
    reflexivity.
Qed.

Lemma leading_white_space (s : str) :
  exists ws, s = ws ++ trimStart s /\ forallb isWhiteSpace ws = true.
Proof.
  induction s as [|c s (ws & IH & Hws)]; [exists []; split; reflexivity|].
  cbn [trimStart]. destruct (isWhiteSpace c) eqn:Hc.
  - exists (c :: ws). cbn [app forallb]. rewrite <- IH, Hc, Hws.
    split; reflexivity.
  - exists []. split; reflexivity.
Qed.

Lemma leading_digits (s : str) :
  exists ds rest,
    s = ds ++ rest /\ forallb isDigit ds = true /\ startsWithDigit rest = false.
Proof.
  induction s as [|c s (ds & rest & -> & Hd & Hr)].
  - exists [], []. repeat split.
  - destruct (isDigit c) eqn:Hc.
    + exists (c :: ds), rest. cbn [app forallb]. rewrite Hc, Hd. repeat split.
      exact Hr.
    + exists [], (c :: ds ++ rest). cbn [startsWithDigit]. repeat split.
      exact Hc.
Qed.

(** Every text either starts with an integer or does not. *)
Lemma integer_or_not (r : str) : noInteger r \/ exists n, leadingInteger r n.
Proof.
  destruct (leading_white_space r) as (ws & E & Hws). rewrite E.
  destruct (trimStart r) as [|c t] eqn:Et.
  - left. rewrite app_nil_r. constructor; exact Hws.
  - assert (Hc : isWhiteSpace c = false).
    { clear E. induction r as [|x r IH]; [discriminate|].
      cbn [trimStart] in Et. destruct (isWhiteSpace x) eqn:Hx; [exact (IH Et)|].
      injection Et as -> _. exact Hx. }
    destruct (N.eqb_spec c 43) as [->|H43]; [|destruct (N.eqb_spec c 45) as [->|H45]].
    + destruct (leading_digits t) as (ds & rest & -> & Hd & Hr).
      destruct ds as [|d ds].
      * left. apply (@bareSign ws (lit "+") rest); [exact Hws | simpl; tauto | exact Hr].
      * right. eexists.
        apply (@leading ws (lit "+") (d :: ds) rest);
          [exact Hws | simpl; tauto | discriminate | exact Hd | exact Hr].
    + destruct (leading_digits t) as (ds & rest & -> & Hd & Hr).
      destruct ds as [|d ds].
      * left. apply (@bareSign ws (lit "-") rest); [exact Hws | simpl; tauto | exact Hr].
      * right. eexists.
        apply (@leading ws (lit "-") (d :: ds) rest);
          [exact Hws | simpl; tauto | discriminate | exact Hd | exact Hr].
    + destruct (isDigit c) eqn:Hd.
      * destruct (leading_digits t) as (ds & rest & -> & Hds & Hr).
        right. eexists.
        apply (@leading ws [] (c :: ds) rest);
          [exact Hws | simpl; tauto | discriminate | | exact Hr].
        cbn [forallb]. rewrite Hd, Hds. reflexivity.
      * left. apply otherText; assumption.
Qed.

(** ** Plain text *)

Lemma replace_go_unmatched (re : list re_node) (s : str) :
  (forall pre c post, s = pre ++ c :: post -> match_here re (c :: post) = None) ->
  replace_go re 0 s = s.
Proof.
  induction s as [|c s IH]; intros H; simpl; [reflexivity|].
  rewrite (H [] c s eq_refl). f_equal. apply IH.
  intros pre c' post E. apply (H (c :: pre)). rewrite E. reflexivity.
Qed.

Lemma removeCR_id (s : str) : ~ In 13%N s -> replaceAll CR_REGEX s = s.
Proof.
  intros H. apply replace_go_unmatched. intros pre c post E. simpl.
  destruct (N.eqb_spec c 13) as [->|_]; [|reflexivity].
  exfalso. apply H. rewrite E. apply in_or_app. right. left. reflexivity.
Qed.

Lemma stripAnsi_id (s : str) : ~ In 27%N s -> stripAnsi s = s.
Proof.
  intros H. apply replace_go_unmatched. intros pre c post E. simpl.
  unfold isEsc.
  destruct (N.eqb_spec c 27) as [->|_]; [|reflexivity].
  exfalso. apply H. rewrite E. apply in_or_app. right. left. reflexivity.
Qed.

Lemma plainChar_facts (c : code_unit) :
  plainChar c = true -> isWhiteSpace c = false /\ c <> 27%N /\ c <> 13%N /\ c <> 10%N.
Proof.
  unfold plainChar. intros H. apply andb_true_iff in H as [Hw He].
  apply negb_true_iff in Hw, He. apply N.eqb_neq in He.
  repeat split; try assumption; intros ->; discriminate Hw.
Qed.

Lemma plain_not_in (s : str) (c : code_unit) :
  forallb plainChar s = true -> plainChar c = false -> ~ In c s.
Proof.
  intros H Hc F. rewrite forallb_forall in H. rewrite (H c F) in Hc.
  discriminate.
Qed.

Lemma trimStart_plain (s : str) :
  forallb plainChar s = true -> trimStart s = s.
Proof.
  destruct s as [|c s]; [reflexivity|]. simpl. intros H.
  apply andb_true_iff in H as [Hc _].
  destruct (plainChar_facts c Hc) as [-> _]. reflexivity.
Qed.

Lemma trim_plain (s : str) : forallb plainChar s = true -> trim s = s.
Proof.
  intros H. unfold trim, trimEnd. rewrite (trimStart_plain s H).
  rewrite trimStart_plain; [apply rev_involutive|].
  apply forallb_forall. intros c Hc. apply in_rev in Hc.
  rewrite forallb_forall in H. exact (H c Hc).
Qed.

Lemma normalize_plain (s : str) : forallb plainChar s = true -> normalize s = s.
Proof.
  intros H. unfold normalize.
  rewrite removeCR_id by (apply plain_not_in; [exact H | reflexivity]).
  apply stripAnsi_id. apply plain_not_in; [exact H | reflexivity].
Qed.

Lemma isUuidChar_plain (c : code_unit) : isUuidChar c = true -> plainChar c = true.
Proof.
  unfold isUuidChar, isDigit, plainChar, isWhiteSpace. intros H.
  apply andb_true_iff. split; apply negb_true_iff.
  - repeat match goal with
      | |- (_ || _) = false => apply orb_false_iff; split
      end;
    repeat match goal with
      | H : (_ || _) = true |- _ => apply orb_true_iff in H as [H|H]
      | H : (_ && _) = true |- _ => apply andb_true_iff in H as [? ?]
      | H : (_ <=? _)%N = true |- _ => apply N.leb_le in H
      | H : (_ =? _)%N = true |- _ => apply N.eqb_eq in H
      end;
    try (apply N.eqb_neq; lia);
    try (apply andb_false_iff; right; apply N.leb_gt; lia);
    try (apply andb_false_iff; left; apply N.leb_gt; lia).
  - repeat match goal with
      | H : (_ || _) = true |- _ => apply orb_true_iff in H as [H|H]
      | H : (_ && _) = true |- _ => apply andb_true_iff in H as [? ?]
      | H : (_ <=? _)%N = true |- _ => apply N.leb_le in H
      | H : (_ =? _)%N = true |- _ => apply N.eqb_eq in H
      end; apply N.eqb_neq; lia.
Qed.

Lemma exitMarker_plain (uuid : str) :
  forallb isUuidChar uuid = true ->
  forallb plainChar (EXIT_SENTINEL_PREFIX ++ uuid) = true.
Proof.
  intros H. rewrite forallb_app. apply andb_true_iff. split; [reflexivity|].
  apply forallb_forall. intros c Hc. apply isUuidChar_plain.
  rewrite forallb_forall in H. exact (H c Hc).
Qed.

(** A sentinel line made of plain text is its own detection target. *)
Lemma detectionTarget_sentinel (uuid remainder : str) :
  forallb isUuidChar uuid = true ->
  forallb plainChar remainder = true ->
  detectionTarget ((EXIT_SENTINEL_PREFIX ++ uuid) ++ lit ":" ++ remainder)
  = (EXIT_SENTINEL_PREFIX ++ uuid) ++ lit ":" ++ remainder.
Proof.
  intros Hu Hr.
  assert (Hp : forallb plainChar
                 ((EXIT_SENTINEL_PREFIX ++ uuid) ++ lit ":" ++ remainder) = true).
  { rewrite forallb_app, exitMarker_plain by exact Hu.
    rewrite forallb_app, Hr. reflexivity. }
  unfold detectionTarget, withoutPrompt. rewrite normalize_plain by exact Hp.
  change (startsWith ((EXIT_SENTINEL_PREFIX ++ uuid) ++ lit ":" ++ remainder)
            PROMPT_PREFIX) with false.
  cbv iota. apply trim_plain. exact Hp.
Qed.

(** ** The sentinel *)

Lemma flushLine_sentinel (verbose : bool) (exitMarker line : str) (st : sink) :
  isSentinel exitMarker line = true ->
  flushLine verbose exitMarker line st =
  match parseInt10 (sentinelRemainder exitMarker line) with
  | Some code => setExitCode code st
  | None => st
  end.
Proof.
  unfold isSentinel, sentinelRemainder, detectionTarget, flushLine.
  intros ->. reflexivity.
Qed.

Lemma isSentinel_nil (exitMarker : str) : isSentinel exitMarker [] = false.
Proof.
  unfold isSentinel. change (detectionTarget []) with (@nil code_unit).
  apply startsWith_nil_l, marker_colon_not_nil.
Qed.

(** A run that reaches the stream, receives the sentinel line with a plain
    remainder and then the close returns what [parseInt] reads in the
    remainder, and 1 with the warning when that is NaN. *)
Lemma sentinel_run (self : runner) (w : world) (command path remainder : str)
  (later : list ws_event) :
  trim command <> [] ->
  proxyUrlValid self = true ->
  terminalPath w = Some path ->
  opened w = None ->
  forallb isUuidChar (uuid w) = true ->
  forallb plainChar remainder = true ->
  events w = sentinelThenClose w remainder later ->
  exists t,
    run self w command [] =
    match parseInt10 remainder with
    | Some n => (Resolved n, t)
    | None => (Resolved (Finite 1), t ++ [missingExitCodeWarning])
    end.
Proof.
  intros Hc Hv Hp Ho Hu Hr He.
  rewrite (run_streams self w command [] Hc Hv Hp Ho), He.
  unfold sentinelThenClose.
  set (line := exitMarkerOf w ++ lit ":" ++ remainder).
  assert (Hplain : forallb plainChar line = true).
  { unfold line, exitMarkerOf. rewrite forallb_app, exitMarker_plain by exact Hu.
    rewrite forallb_app, Hr. reflexivity. }
  assert (Htarget : detectionTarget line = line).
  { unfold line, exitMarkerOf. apply detectionTarget_sentinel; assumption. }
  destruct (@streamCommand_close (verbose self) (exitMarkerOf w)
              [stdoutFrame (exitMarkerOf w ++ lit ":" ++ remainder ++ newline)]
              later command ([] ++ prelude self command path) [line] [])
    as [t E].
  { unfold streamText, joinLines, line. cbn [List.map concat].
    change (stdoutText (stdoutFrame ?x)) with x.
    rewrite !app_nil_r, <- !app_assoc. reflexivity. }
  { repeat constructor. apply plain_not_in; [exact Hplain | reflexivity]. }
  { intros []. }
  cbn [List.map app] in E. cbn [List.map app]. rewrite E. clear E.
  cbn [fold_left app].
  assert (Hs : isSentinel (exitMarkerOf w) line = true).
  { unfold isSentinel. rewrite Htarget. unfold line.
    rewrite app_assoc. apply startsWith_app. }
  assert (Hrem : sentinelRemainder (exitMarkerOf w) line = remainder).
  { unfold sentinelRemainder. rewrite Htarget. unfold line.
    rewrite app_assoc.
    replace (len (exitMarkerOf w) + 1)%Z with (len (exitMarkerOf w ++ lit ":"))
      by (rewrite len_app; reflexivity).
    apply slice_from. }
  unfold stepCode at 2. rewrite Hs, Hrem.
  destruct (parseInt10 remainder) as [n|];
    unfold stepCode; rewrite isSentinel_nil; eexists;
    rewrite ?app_comm_cons, ?app_assoc; reflexivity.
Qed.

(** C2, as the code has it. A line whose trimmed text begins with
    ["<marker>:"] writes nothing; when what follows the colon starts with
    an integer (optional white space, optional sign, decimal digits) that
    integer becomes the captured exit code, whatever follows the digits;
    when it does not, the captured exit code is left as it was. A run
    whose stream is ["<marker>:0"] and then the close returns 0, with
    ["<marker>:137"] it returns 137, and with ["<marker>:abc"] it returns
    the fallback 1 after the warning. *)
Theorem sentinel_line_records_exit_code :
  (forall (verbose : bool) (exitMarker line : str) (st : sink),
      isSentinel exitMarker line = true ->
      trace (flushLine verbose exitMarker line st) = trace st /\
      (forall n, leadingInteger (sentinelRemainder exitMarker line) n ->
                 flushLine verbose exitMarker line st = setExitCode n st) /\
      (noInteger (sentinelRemainder exitMarker line) ->
       flushLine verbose exitMarker line st = st)) /\
  (forall (self : runner) (w : world) (command path : str)
          (later : list ws_event),
      trim command <> [] ->
      proxyUrlValid self = true ->
      terminalPath w = Some path ->
      opened w = None ->
      forallb isUuidChar (uuid w) = true ->
      (events w = sentinelThenClose w (lit "0") later ->
       fst (run self w command []) = Resolved (Finite 0)) /\
      (events w = sentinelThenClose w (lit "137") later ->
       fst (run self w command []) = Resolved (Finite 137)) /\
      (events w = sentinelThenClose w (lit "abc") later ->
       exists t, run self w command []
                 = (Resolved (Finite 1), t ++ [missingExitCodeWarning]))).
Proof.
  split.
  - intros verbose exitMarker line st Hs.
    rewrite (@flushLine_sentinel verbose exitMarker line st Hs).
    split; [|split].
    + destruct (parseInt10 _); reflexivity.
    + intros n Hn. rewrite (parseInt10_leading Hn). reflexivity.
    + intros Hn. rewrite (parseInt10_none Hn). reflexivity.
  - intros self w command path later Hc Hv Hp Ho Hu.
    split; [|split]; intros He.
    + destruct (@sentinel_run self w command path (lit "0") later
                  Hc Hv Hp Ho Hu eq_refl He)
        as [t E].
      rewrite E. reflexivity.
    + destruct (@sentinel_run self w command path (lit "137") later
                  Hc Hv Hp Ho Hu eq_refl He)
        as [t E].
      rewrite E. reflexivity.
    + exact (@sentinel_run self w command path (lit "abc") later
               Hc Hv Hp Ho Hu eq_refl He).
Qed.

Lemma sentinel_line_records_exit_code_witness :
  isSentinel marker0 (lit "/# " ++ marker0 ++ lit ": -7 (killed)") = true /\
  flushLine false marker0 (lit "/# " ++ marker0 ++ lit ": -7 (killed)") sink0
  = setExitCode (Finite (-7)) sink0 /\
  fst (run quiet (okWorld (sentinelThenClose (okWorld []) (lit "137") []))
         (lit "false") [])
  = Resolved (Finite 137).
Proof.
  split; [reflexivity|]. split.
  - apply (proj1 (proj2 (proj1 sentinel_line_records_exit_code false marker0
                           (lit "/# " ++ marker0 ++ lit ": -7 (killed)") sink0
                           eq_refl))).
    apply (@leading (lit " ") (lit "-") (lit "7") (lit " (killed)"));
      try reflexivity; [simpl; tauto | discriminate].
  - apply (proj1 (proj2 (proj2 sentinel_line_records_exit_code quiet
                           (okWorld (sentinelThenClose (okWorld []) (lit "137") []))
                           (lit "false") (lit "1") []
                           ltac:(discriminate) eq_refl eq_refl eq_refl eq_refl))).
    reflexivity.
Defined.

(** A remainder that is not a number, ["12abc"], is recorded as 12. *)
Lemma malformed_remainder_is_recorded :
  parseInt10 (lit "12abc") = Some (Finite 12) /\
  fst (run quiet (okWorld (sentinelThenClose (okWorld []) (lit "12abc") []))
         (lit "false") [])
  = Resolved (Finite 12).
Proof. split; reflexivity. Qed.

(** ** Escape sequences *)

Lemma match_star_run (cls : code_unit -> bool) (k : str -> option str)
  (xs t r : str) :
  forallb cls xs = true ->
  match_star cls k t = Some r ->
  match_star cls k (xs ++ t) = Some r.
Proof.
  intros Hx Ht; induction xs as [|x xs IH]; simpl; [exact Ht|].
  simpl in Hx. apply andb_true_iff in Hx as [Hc Hx].
  rewrite Hc, (IH Hx). reflexivity.
Qed.

Lemma match_star_stop (cls : code_unit -> bool) (k : str -> option str)
  (c : code_unit) (t : str) :
  cls c = false -> match_star cls k (c :: t) = k (c :: t).
Proof. simpl. intros ->. reflexivity. Qed.

Lemma match_star_sound (cls : code_unit -> bool) (k : str -> option str)
  (s r : str) :
  match_star cls k s = Some r ->
  exists xs s', s = xs ++ s' /\ forallb cls xs = true /\ k s' = Some r.
Proof.
  induction s as [|c s IH]; simpl; intros H.
  - exists [], []. auto.
  - destruct (cls c) eqn:Hc.
    + destruct (match_star cls k s) as [r'|] eqn:E.
      * injection H as ->.
        destruct (IH eq_refl) as (xs & s' & -> & Hx & Hk).
        exists (c :: xs), s'. simpl. rewrite Hc, Hx. auto.
      * exists [], (c :: s). auto.
    + exists [], (c :: s). auto.
Qed.

Lemma isFinal_facts (c : code_unit) :
  isFinal c = true ->
  isParam c = false /\ isIntermediate c = false /\ c <> 27%N /\ c <> 13%N.
Proof.
  unfold isFinal, isParam, isIntermediate. intros H.
  apply andb_true_iff in H as [H1 H2]. apply N.leb_le in H1, H2.
  repeat split; try lia;
    repeat match goal with
      | |- (_ || _) = false => apply orb_false_iff; split
      | |- (_ =? _)%N = false => apply N.eqb_neq; lia
      | |- (_ && _) = false => apply andb_false_iff; right; apply N.leb_gt; lia
      end.
Qed.

Lemma isIntermediate_facts (c : code_unit) :
  isIntermediate c = true -> isParam c = false /\ c <> 27%N /\ c <> 13%N.
Proof.
  unfold isParam, isIntermediate. intros H.
  apply andb_true_iff in H as [H1 H2]. apply N.leb_le in H1, H2.
  repeat split; try lia;
    repeat match goal with
      | |- (_ || _) = false => apply orb_false_iff; split
      | |- (_ =? _)%N = false => apply N.eqb_neq; lia
      | |- (_ && _) = false => apply andb_false_iff; left; apply N.leb_gt; lia
      end.
Qed.

Lemma isParam_facts (c : code_unit) :
  isParam c = true -> c <> 27%N /\ c <> 13%N.
Proof.
  unfold isParam. intros H.
  repeat match goal with
    | H : (_ || _) = true |- _ => apply orb_true_iff in H as [H|H]
    | H : (_ && _) = true |- _ => apply andb_true_iff in H as [? ?]
    | H : (_ <=? _)%N = true |- _ => apply N.leb_le in H
    | H : (_ =? _)%N = true |- _ => apply N.eqb_eq in H
    end; split; lia.
Qed.

(** The pattern matches a control sequence, and exactly it. *)
Lemma match_here_escape (e rest : str) :
  escapeSequence e -> match_here ANSI_ESCAPE_REGEX (e ++ rest) = Some rest.
Proof.
  intros (ps & ims & f & -> & Hps & Hims & Hf).
  destruct (isFinal_facts f Hf) as (Hfp & Hfi & _).
  cbn [app match_here ANSI_ESCAPE_REGEX].
  change (isEsc 27%N) with true. change (isBracket 91%N) with true. cbv iota.
  rewrite <- !app_assoc. apply match_star_run; [exact Hps|].
  assert (Hk : match_star isIntermediate (match_here [One isFinal])
                 (ims ++ [f] ++ rest) = Some rest).
  { apply match_star_run; [exact Hims|].
    cbn [app]. rewrite match_star_stop by exact Hfi.
    cbn [match_here]. rewrite Hf. reflexivity. }
  destruct ims as [|i ims].
  - cbn [app] in *. rewrite match_star_stop by exact Hfp. exact Hk.
  - cbn [forallb] in Hims. apply andb_true_iff in Hims as [Hi _].
    destruct (isIntermediate_facts i Hi) as (Hip & _).
    cbn [app] in *. rewrite match_star_stop by exact Hip. exact Hk.
Qed.

(** What the pattern matches is a control sequence. *)
Lemma match_here_sound (t r : str) :
  match_here ANSI_ESCAPE_REGEX t = Some r ->
  exists e, escapeSequence e /\ t = e ++ r.
Proof.
  cbn [match_here ANSI_ESCAPE_REGEX]. intros H.
  destruct t as [|c0 t]; [discriminate|].
  destruct (isEsc c0) eqn:E0; [|discriminate].
  destruct t as [|c1 t]; [discriminate|].
  destruct (isBracket c1) eqn:E1; [|discriminate].
  apply N.eqb_eq in E0, E1. subst c0 c1.
  apply match_star_sound in H as (ps & t1 & -> & Hps & H).
  apply match_star_sound in H as (ims & t2 & -> & Hims & H).
  destruct t2 as [|f t2]; [discriminate|].
  destruct (isFinal f) eqn:Hf; [|discriminate].
  injection H as <-.
  exists (27%N :: 91%N :: ps ++ ims ++ [f]). split.
  - exists ps, ims, f. auto.
  - cbn [app]. rewrite <- !app_assoc. reflexivity.
Qed.

Lemma escapeSequence_head (e : str) :
  escapeSequence e -> exists body, e = 27%N :: body /\ ~ In 27%N body /\ ~ In 13%N body.
Proof.
  intros (ps & ims & f & -> & Hps & Hims & Hf).
  exists (91%N :: ps ++ ims ++ [f]). split; [reflexivity|].
  rewrite forallb_forall in Hps, Hims.
  split; intros [F | F]; try discriminate;
    apply in_app_or in F as [F | F];
    try (apply Hps, isParam_facts in F; tauto);
    apply in_app_or in F as [F | F];
    try (apply Hims, isIntermediate_facts in F; tauto);
    destruct F as [F | []]; subst f; discriminate Hf.
Qed.

Lemma replace_go_skip (re : list re_node) (x l : str) :
  replace_go re (List.length x) (x ++ l) = replace_go re 0 l.
Proof. induction x as [|c x IH]; simpl; [reflexivity | exact IH]. Qed.

Lemma stripAnsi_escape (e l : str) :
  escapeSequence e -> stripAnsi (e ++ l) = stripAnsi l.
Proof.
  intros He. pose proof (match_here_escape l He) as Hm.
  destruct (escapeSequence_head He) as (body & -> & _).
  unfold stripAnsi, replaceAll. cbn [app replace_go] in *. rewrite Hm.
  unfold str, code_unit in *.
  assert (El : (List.length (27%N :: body ++ l) - List.length l
                = S (List.length body))%nat)
    by (cbn [length]; rewrite length_app; lia).
  rewrite El. apply replace_go_skip.
Qed.

(** The plain code units a decorated line starts with are the code units
    the text starts with. *)
Lemma decorated_plain_prefix (s line : str) :
  decorated s line ->
  forall x r, line = x ++ r -> ~ In 27%N x ->
              exists s', s = x ++ s' /\ decorated s' r.
Proof.
  induction 1 as [|c s line H IH|e s line He H IH]; intros x r E Hx.
  - destruct x; [|discriminate]. simpl in E. subst r.
    exists []. split; [reflexivity | constructor].
  - destruct x as [|c' x]; simpl in E.
    + subst r. exists (c :: s). split; [reflexivity|].
      constructor; exact H.
    + injection E as <- ->.
      destruct (IH x r eq_refl) as (s' & -> & Hd);
        [intros F; apply Hx; right; exact F|].
      exists s'. split; [reflexivity | exact Hd].
  - destruct x as [|c' x]; simpl in E.
    + subst r. exists s. split; [reflexivity|].
      constructor; assumption.
    + destruct (escapeSequence_head He) as (body & -> & _).
      injection E as <- _. exfalso. apply Hx. left. reflexivity.
Qed.

Lemma escapeFree_tail (c : code_unit) (s : str) :
  escapeFree (c :: s) -> escapeFree s.
Proof.
  intros H pre e post He E. apply (H (c :: pre) e post He).
  rewrite E. reflexivity.
Qed.

(** Stripping a decorated text that holds no control sequence of its own
    gives the text back. *)
Lemma stripAnsi_decorated (s line : str) :
  decorated s line -> escapeFree s -> stripAnsi line = s.
Proof.
  induction 1 as [|c s line H IH|e s line He H IH]; intros Hf.
  - reflexivity.
  - unfold stripAnsi, replaceAll in *. cbn [replace_go].
    destruct (match_here ANSI_ESCAPE_REGEX (c :: line)) as [r|] eqn:Hm.
    + exfalso. apply match_here_sound in Hm as (e & He & E).
      destruct (escapeSequence_head He) as (body & -> & Hb & _).
      injection E as -> ->.
      destruct (decorated_plain_prefix H body r eq_refl Hb) as (s' & -> & _).
      apply (Hf [] (27%N :: body) s' He). reflexivity.
    + f_equal. apply IH. exact (escapeFree_tail Hf).
  - rewrite stripAnsi_escape by exact He. exact (IH Hf).
Qed.

Lemma decorated_no_CR (s line : str) :
  decorated s line -> ~ In 13%N s -> ~ In 13%N line.
Proof.
  induction 1 as [|c s line H IH|e s line He H IH]; intros Hs F.
  - exact F.
  - destruct F as [F | F]; [apply Hs; left; exact F|].
    apply IH; [|exact F]. intros G; apply Hs; right; exact G.
  - apply in_app_or in F as [F | F]; [|exact (IH Hs F)].
    destruct (escapeSequence_head He) as (body & -> & _ & Hb).
    destruct F as [F | F]; [discriminate | exact (Hb F)].
Qed.

Lemma decorated_not_nil (c : code_unit) (s line : str) :
  decorated (c :: s) line -> line <> [].
Proof.
  intros H. remember (c :: s) as t eqn:Et.
  induction H as [|c' s' line H IH|e s' line He H IH]; try discriminate.
  destruct (escapeSequence_head He) as (body & -> & _). discriminate.
Qed.

Lemma escapeFree_prompt (s : str) :
  escapeFree s -> escapeFree (PROMPT_PREFIX ++ s).
Proof.
  intros Hs pre e post He E.
  destruct (escapeSequence_head He) as (body & -> & _).
  destruct pre as [|a [|b [|c pre]]]; try discriminate E.
  injection E as _ _ _ E. exact (Hs pre _ post He E).
Qed.

(** ** Decorated lines *)

Lemma trimStart_suffix (s : str) : exists ws, s = ws ++ trimStart s.
Proof.
  induction s as [|c s [ws IH]]; [exists []; reflexivity|].
  simpl. destruct (isWhiteSpace c).
  - exists (c :: ws). simpl. rewrite <- IH. reflexivity.
  - exists []. reflexivity.
Qed.

Lemma trim_infix (s : str) : exists a b, s = a ++ trim s ++ b.
Proof.
  destruct (trimStart_suffix s) as [a Ea].
  destruct (trimStart_suffix (rev (trimStart s))) as [b Eb].
  exists a, (rev b). unfold trim, trimEnd. rewrite <- rev_app_distr, <- Eb.
  rewrite rev_involutive. exact Ea.
Qed.

Lemma not_contains_not_sentinel (s exitMarker : str) :
  ~ contains s exitMarker ->
  startsWith (trim s) (exitMarker ++ lit ":") = false.
Proof.
  intros H. destruct (startsWith _ _) eqn:E; [|reflexivity].
  exfalso. apply H. apply startsWith_inv in E as [t Et].
  destruct (trim_infix s) as (a & b & Es). rewrite Et in Es.
  exists a, (lit ":" ++ t ++ b). rewrite Es, <- !app_assoc. reflexivity.
Qed.

Lemma shorter_not_contains (s m : str) :
  (List.length s < List.length m)%nat -> ~ contains s m.
Proof.
  intros H (pre & post & E). apply (f_equal (@List.length _)) in E.
  rewrite !length_app in E. str_lia.
Qed.

Lemma not_in_check (c : code_unit) (s : str) :
  forallb (fun x => negb (x =? c)%N) s = true -> ~ In c s.
Proof.
  intros H F. rewrite forallb_forall in H. specialize (H c F).
  rewrite N.eqb_refl in H. discriminate.
Qed.

Lemma no_escape_char_escapeFree (s : str) : ~ In 27%N s -> escapeFree s.
Proof.
  intros H pre e post He E. destruct (escapeSequence_head He) as (body & -> & _).
  apply H. rewrite E. apply in_or_app. right. left. reflexivity.
Qed.

Lemma withoutPrompt_decorated (s line : str) :
  decorated (PROMPT_PREFIX ++ s) line ->
  ~ In 13%N s -> escapeFree s ->
  withoutPrompt line = s.
Proof.
  intros Hd Hcr Hf. unfold withoutPrompt, normalize.
  rewrite removeCR_id.
  2:{ apply (decorated_no_CR Hd). intros F.
      apply in_app_or in F as [F | F]; [|exact (Hcr F)].
      revert F. apply not_in_check. reflexivity. }
  rewrite (stripAnsi_decorated Hd (escapeFree_prompt Hf)).
  rewrite startsWith_app. apply slice_from.
Qed.

(** C5, as the code has it. With verbose mode off, a line made of the
    prompt prefix and a text [s], with control sequences put in anywhere,
    forwards exactly [s] and a newline to standard output, provided [s] is
    not empty, holds no carriage return and no control sequence of its
    own, does not contain the marker, and is not boilerplate once trimmed.
    The control sequences are those the runner's pattern matches and no
    others: ESC, [[], any of [0-9;?], any characters from space to [/],
    and one final character from [@] to [~]. With verbose mode on the
    same line is forwarded as received. *)
Theorem decorated_line_forwards_text (exitMarker s line : str) (st : sink) :
  decorated (PROMPT_PREFIX ++ s) line ->
  ~ contains s exitMarker ->
  s <> [] ->
  ~ In 13%N s ->
  escapeFree s ->
  ~ boilerplate (trim s) ->
  flushLine false exitMarker line st = emit (StdoutWrite (s ++ newline)) st /\
  flushLine true exitMarker line st = emit (StdoutWrite (line ++ newline)) st.
Proof.
  intros Hd Hm Hne Hcr Hf Hb.
  pose proof (withoutPrompt_decorated Hd Hcr Hf) as Hw.
  pose proof (not_contains_not_sentinel Hm) as Hs.
  assert (Hlen : forall x : str, x <> [] -> (0 <? len x)%Z = true).
  { intros [|c x] Hx; [congruence|]. unfold len. reflexivity. }
  unfold flushLine. rewrite Hw, Hs. split.
  - assert (shouldSuppressLine (trim s) exitMarker = false) as ->
      by (apply shouldSuppressLine_false; split; assumption).
    cbn [negb andb]. rewrite (Hlen s Hne). reflexivity.
  - cbn [negb andb]. rewrite Hlen; [reflexivity|].
    exact (decorated_not_nil Hd).
Qed.

Lemma sgrReset_escape : escapeSequence sgrReset.
Proof. exists (lit "0"), [], 109%N. repeat split. Qed.

Lemma sgrGreen_escape : escapeSequence sgrGreen.
Proof. exists (lit "1;32"), [], 109%N. repeat split. Qed.

Lemma decorated_refl (s : str) : decorated s s.
Proof. induction s; constructor; assumption. Qed.

Lemma decorated_line_forwards_text_witness :
  flushLine false marker0
    (sgrGreen ++ lit "/# hi" ++ sgrReset ++ lit " there") sink0
  = emit (StdoutWrite (lit "hi there" ++ newline)) sink0 /\
  flushLine true marker0
    (sgrGreen ++ lit "/# hi" ++ sgrReset ++ lit " there") sink0
  = emit (StdoutWrite ((sgrGreen ++ lit "/# hi" ++ sgrReset ++ lit " there")
                         ++ newline)) sink0.
Proof.
  apply (@decorated_line_forwards_text marker0 (lit "hi there")
           (sgrGreen ++ lit "/# hi" ++ sgrReset ++ lit " there") sink0).
  - apply decorated_escape; [exact sgrGreen_escape|].
    do 5 apply decorated_keep.
    apply decorated_escape; [exact sgrReset_escape|].
    apply decorated_refl.
  - apply shorter_not_contains. vm_compute. lia.
  - discriminate.
  - apply not_in_check. reflexivity.
  - apply no_escape_char_escapeFree, not_in_check. reflexivity.
  - apply (proj2 (proj1 (shouldSuppressLine_false (trim (lit "hi there")) marker0)
                    eq_refl)).
Defined.

(** The text [exit] does not contain the marker; decorated and behind the
    prompt it is not forwarded. In verbose mode the text [hi] is forwarded
    with its decoration. With verbose mode off, an escape sequence the
    pattern does not match, here the character set selection ESC ( B, is
    forwarded, and the prompt prefix behind it as well. *)
Lemma decorated_text_not_forwarded :
  decorated (PROMPT_PREFIX ++ lit "exit") (sgrReset ++ lit "/# exit") /\
  ~ contains (lit "exit") marker0 /\
  flushLine false marker0 (sgrReset ++ lit "/# exit") sink0 = sink0 /\
  decorated (PROMPT_PREFIX ++ lit "hi") (sgrReset ++ lit "/# hi") /\
  ~ contains (lit "hi") marker0 /\
  flushLine true marker0 (sgrReset ++ lit "/# hi") sink0
  = emit (StdoutWrite (sgrReset ++ lit "/# hi" ++ newline)) sink0 /\
  sgrReset ++ lit "/# hi" ++ newline <> lit "hi" ++ newline /\
  flushLine false marker0 (27%N :: lit "(B" ++ lit "/# hi") sink0
  = emit (StdoutWrite (27%N :: lit "(B" ++ lit "/# hi" ++ newline)) sink0.
Proof.
  repeat split.
  - apply decorated_escape; [exact sgrReset_escape | apply decorated_refl].
  - apply shorter_not_contains. vm_compute. lia.
  - apply decorated_escape; [exact sgrReset_escape | apply decorated_refl].
  - apply shorter_not_contains. vm_compute. lia.
  - discriminate.
Qed.

(** ** The scenario of the specification *)

(** The command [echo hi], the frames ["hi\n"] and ["<marker>:0\n"], then
    the close: the line [hi] is written and the exit code is 0. *)
Example echo_hi :
  run quiet
    (okWorld [Message (stdoutFrame (lit "hi" ++ newline));
              Message (stdoutFrame (marker0 ++ lit ":0" ++ newline));
              Close])
    (lit "echo hi") []
  = (Resolved (Finite 0),
     [HttpPost (lit "api/terminals");
      WsConnect (lit "terminals/websocket/1");
      WsSend (stdinFrame marker0 (lit "echo hi"));
      StdoutWrite (lit "hi" ++ newline)]).
Proof. reflexivity. Qed.

(** * More of the runner *)

(** ** The line buffer keeps the text *)

(** The complete lines and the partial line the buffer holds after any
    sequence of chunks are, put back together with their newlines, the text
    received; no line and no partial line has a newline in it. *)
Theorem line_buffer_conserves_text (chunks : list str) :
  joinLines (fst (completedLines chunks)) (snd (completedLines chunks))
  = concat chunks /\
  Forall noNewline (fst (completedLines chunks)) /\
  noNewline (snd (completedLines chunks)).
Proof.
  rewrite completedLines_spec. split; [apply joinLines_splitLines|].
  split; [apply splitLines_lines_noNewline | apply splitLines_rest_noNewline].
Qed.

(** ** What the listeners add to the trace *)

Section Filters.

Variable verbose : bool.
Variable exitMarker : str.
Variable p : action -> bool.
Hypothesis p_stdout : forall text, p (StdoutWrite text) = false.

Lemma flushLine_filter (line : str) (st : sink) :
  filter p (trace (flushLine verbose exitMarker line st)) = filter p (trace st).
Proof.
  destruct (flushLine_trace verbose exitMarker line st) as [E | (x & _ & E)];
    rewrite E; [reflexivity|].
  rewrite filter_app. cbn [filter]. rewrite p_stdout. apply app_nil_r.
Qed.

Lemma flushAll_filter (lines : list str) (st : sink) :
  filter p (trace (flushAll (flushLine verbose exitMarker) lines st))
  = filter p (trace st).
Proof.
  revert st; induction lines as [|l ls IH]; intros st; [reflexivity|].
  change (flushAll (flushLine verbose exitMarker) (l :: ls) st)
    with (flushAll (flushLine verbose exitMarker) ls
            (flushLine verbose exitMarker l st)).
  rewrite IH. apply flushLine_filter.
Qed.

(** A message first does what [messageActions] lists, then feeds its text
    to the line buffer. *)
Lemma onMessage_decompose (data : option value) (c : closure) :
  noNewline (fst c) ->
  onMessage verbose exitMarker data c =
  feed (flushLine verbose exitMarker) (stdoutText data)
    (fst c, addActions (messageActions verbose data) (snd c)).
Proof.
  intros Hb. destruct c as [buffer st]. cbn [fst snd] in *.
  assert (Hidle : forall l, (buffer, addActions l st) =
                            feed (flushLine verbose exitMarker) []
                              (buffer, addActions l st)).
  { intros l. rewrite feed_spec, app_nil_r, splitLines_noNewline by exact Hb.
    reflexivity. }
  assert (Hnone : (buffer, st) = feed (flushLine verbose exitMarker) []
                                   (buffer, addActions [] st)).
  { rewrite <- Hidle. unfold addActions. rewrite app_nil_r.
    destruct st; reflexivity. }
  unfold onMessage, stdoutText, messageActions, warnFrame. cbn [fst snd].
  destruct data as [frame|]; [|apply (Hidle [_])].
  destruct (getIndex frame 0) as [tag|]; [|apply (Hidle [_])].
  destruct tag; try exact Hnone.
  destruct (str_eqb s (lit "stdout")).
  - destruct (ToString _) as [text|]; [|apply (Hidle [_])].
    unfold feed, addActions. cbn [fst snd]. rewrite app_nil_r.
    destruct st; reflexivity.
  - destruct (str_eqb s (lit "stderr")).
    + destruct (orUndefined _); apply (Hidle [_]).
    + destruct (str_eqb s (lit "disconnect")); [|exact Hnone].
      destruct verbose; [apply (Hidle [_]) | exact Hnone].
Qed.

Lemma onMessage_filter (data : option value) (c : closure) :
  noNewline (fst c) ->
  filter p (trace (snd (onMessage verbose exitMarker data c)))
  = filter p (trace (snd c)) ++ filter p (messageActions verbose data).
Proof.
  intros Hb. rewrite onMessage_decompose by exact Hb.
  rewrite feed_spec. cbn [fst snd]. rewrite flushAll_filter.
  cbn [addActions trace]. apply filter_app.
Qed.

Lemma onMessage_noNewline (data : option value) (c : closure) :
  noNewline (fst c) -> noNewline (fst (onMessage verbose exitMarker data c)).
Proof.
  intros Hb. destruct (onMessage_lines verbose exitMarker data c Hb) as [-> _].
  apply splitLines_rest_noNewline.
Qed.

Lemma onMessages_filter (messages : list (option value)) (c : closure) :
  noNewline (fst c) ->
  filter p (trace (snd (onMessages verbose exitMarker messages c)))
  = filter p (trace (snd c))
    ++ filter p (flat_map (messageActions verbose) messages) /\
  noNewline (fst (onMessages verbose exitMarker messages c)).
Proof.
  revert c; induction messages as [|m ms IH]; intros c Hb.
  - cbn [flat_map filter]. rewrite app_nil_r. split; [reflexivity | exact Hb].
  - change (onMessages verbose exitMarker (m :: ms) c)
      with (onMessages verbose exitMarker ms (onMessage verbose exitMarker m c)).
    destruct (IH _ (onMessage_noNewline m c Hb)) as [E Hn].
    split; [|exact Hn].
    rewrite E, onMessage_filter by exact Hb.
    cbn [flat_map]. rewrite filter_app, app_assoc. reflexivity.
Qed.

Hypothesis p_warning : p missingExitCodeWarning = false.

Lemma onClose_filter (c : closure) :
  filter p (trace (snd (snd (onClose verbose exitMarker c))))
  = filter p (trace (snd c)).
Proof.
  destruct c as [buffer st]. rewrite onClose_spec. cbv zeta.
  pose proof (flushLine_filter buffer st) as E.
  destruct (capturedExitCode (flushLine verbose exitMarker buffer st));
    cbn [snd emit trace]; [exact E|].
  rewrite filter_app. cbn [filter]. rewrite p_warning, app_nil_r. exact E.
Qed.

Lemma deliver_filter (events : list ws_event) (c : closure) :
  noNewline (fst c) ->
  filter p (trace (snd (snd (deliver verbose exitMarker events c))))
  = filter p (trace (snd c))
    ++ filter p (flat_map (messageActions verbose) (deliveredMessages events)).
Proof.
  revert c; induction events as [|ev evs IH]; intros c Hb.
  - cbn. rewrite app_nil_r. reflexivity.
  - destruct ev as [data| |err]; cbn [deliver deliveredMessages flat_map].
    + rewrite IH by (apply onMessage_noNewline; exact Hb).
      rewrite onMessage_filter by exact Hb.
      rewrite filter_app, app_assoc. reflexivity.
    + pose proof (onClose_filter c) as E.
      destruct (onClose verbose exitMarker c) as [code c'].
      cbn [filter]. rewrite app_nil_r. exact E.
    + cbn [snd filter]. rewrite app_nil_r. reflexivity.
Qed.

End Filters.

(** ** Standard error *)

Lemma stderr_of_message (verbose : bool) (data : option value) :
  filter isStderrWrite (messageActions verbose data) = stderrOf data.
Proof.
  unfold messageActions, stderrOf.
  destruct data as [frame|]; [|reflexivity].
  destruct (getIndex frame 0) as [tag|]; [|reflexivity].
  destruct tag; try reflexivity.
  destruct (str_eqb s (lit "stdout")) eqn:E1.
  - apply str_eqb_eq in E1. subst s. cbn.
    destruct (ToString _); reflexivity.
  - destruct (str_eqb s (lit "stderr")).
    + destruct (orUndefined _); reflexivity.
    + destruct (str_eqb s (lit "disconnect")); [|reflexivity].
      destruct verbose; reflexivity.
Qed.

Lemma filter_flat_map {A B : Type} (q : B -> bool) (f : A -> list B)
  (l : list A) :
  filter q (flat_map f l) = flat_map (fun x => filter q (f x)) l.
Proof.
  induction l as [|x l IH]; cbn [flat_map]; [reflexivity|].
  rewrite filter_app, IH. reflexivity.
Qed.

(** ** The listeners after the promise has settled *)

Lemma listen_messages (verbose : bool) (exitMarker : str)
  (messages : list (option value)) (rest : list ws_event) (s : wiring) :
  listen verbose exitMarker (List.map Message messages ++ rest) s
  = listen verbose exitMarker rest
      {| vars := onMessages verbose exitMarker messages (vars s);
         exitPromise := exitPromise s;
         closeListener := closeListener s;
         errorListener := errorListener s;
         thrown := thrown s |}.
Proof.
  revert s; induction messages as [|m ms IH]; intros s.
  - destruct s; reflexivity.
  - cbn [List.map app listen]. rewrite IH. reflexivity.
Qed.

Lemma listen_settled (verbose : bool) (exitMarker : str)
  (events : list ws_event) (s : wiring) :
  exitPromise s <> Pending number ->
  exitPromise (listen verbose exitMarker events s) = exitPromise s.
Proof.
  revert s; induction events as [|ev evs IH]; intros s H; [reflexivity|].
  assert (Hs : forall o, settle o (exitPromise s) = exitPromise s)
    by (intros o; destruct (exitPromise s); [reflexivity | reflexivity | congruence]).
  destruct ev as [data| |err]; cbn [listen].
  - rewrite IH; [reflexivity | exact H].
  - destruct (closeListener s); [|apply IH; exact H].
    destruct (onClose verbose exitMarker (vars s)) as [code c'].
    rewrite IH; cbn [exitPromise]; rewrite Hs; [reflexivity | exact H].
  - destruct (errorListener s); [|reflexivity].
    rewrite IH; cbn [exitPromise]; rewrite Hs; [reflexivity | exact H].
Qed.

(** The promise [listen] ends with is the one [deliver] gives: the first
    ["close"] or ["error"] settles it, and nothing after that changes it. *)
Lemma listen_outcome (verbose : bool) (exitMarker : str)
  (events : list ws_event) (c : closure) :
  exitPromise (listen verbose exitMarker events (wired c))
  = fst (deliver verbose exitMarker events c).
Proof.
  unfold wired. revert c; induction events as [|ev evs IH]; intros c;
    [reflexivity|].
  destruct ev as [data| |err]; cbn [listen deliver closeListener errorListener
                                     vars exitPromise thrown settle].
  - apply IH.
  - destruct (onClose verbose exitMarker c) as [code c'].
    rewrite listen_settled by discriminate. reflexivity.
  - rewrite listen_settled by discriminate. reflexivity.
Qed.

Lemma onClose_buffer (verbose : bool) (exitMarker : str) (c : closure) :
  fst (snd (onClose verbose exitMarker c)) = [].
Proof.
  destruct c as [buffer st]. rewrite onClose_spec. cbv zeta.
  destruct (capturedExitCode _); reflexivity.
Qed.

Lemma listen_filter (verbose : bool) (exitMarker : str) (p : action -> bool)
  (events : list ws_event) (s : wiring) :
  (forall text, p (StdoutWrite text) = false) ->
  p missingExitCodeWarning = false ->
  noNewline (fst (vars s)) ->
  filter p (trace (snd (vars (listen verbose exitMarker events s))))
  = filter p (trace (snd (vars s)))
    ++ filter p (flat_map (messageActions verbose)
                   (heard events (errorListener s))).
Proof.
  intros Hs Hw. revert s; induction events as [|ev evs IH]; intros s Hb.
  - cbn [listen heard flat_map filter]. rewrite app_nil_r. reflexivity.
  - destruct ev as [data| |err]; cbn [listen heard flat_map].
    + rewrite IH by (apply onMessage_noNewline; exact Hb).
      cbn [vars errorListener].
      rewrite (@onMessage_filter verbose exitMarker p Hs) by exact Hb.
      rewrite filter_app, app_assoc. reflexivity.
    + destruct (closeListener s); [|apply IH; exact Hb].
      pose proof (@onClose_filter verbose exitMarker p Hs Hw (vars s)) as E.
      pose proof (onClose_buffer verbose exitMarker (vars s)) as B.
      destruct (onClose verbose exitMarker (vars s)) as [code c'].
      cbn [snd] in E, B.
      rewrite IH by (cbn [vars]; rewrite B; intros []).
      cbn [vars errorListener]. rewrite E. reflexivity.
    + destruct (errorListener s).
      * rewrite IH by exact Hb. reflexivity.
      * cbn [vars filter]. rewrite app_nil_r. reflexivity.
Qed.

(** Every call of [process.stderr.write] the listeners make writes the
    payload of a [stderr] frame with a string payload, as received, one
    call per frame and in arrival order: no line buffering, no stripping,
    no suppression, in either mode. This holds of the calls made by the
    time the promise settles, which are those of the frames before the
    first close or error, and of all the calls the listeners ever make,
    which are those of every frame heard, the frames after that moment
    included. The warnings of [console.warn] are not counted. *)
Theorem stderr_frames_are_written_raw (verbose : bool) (exitMarker : str)
  (events : list ws_event) (command : str) (before : list action)
  (st : sink) :
  filter isStderrWrite
    (snd (streamCommand verbose exitMarker events command before))
  = filter isStderrWrite before
    ++ flat_map stderrOf (deliveredMessages events) /\
  filter isStderrWrite
    (trace (snd (vars (listen verbose exitMarker events (wired ([], st))))))
  = filter isStderrWrite (trace st) ++ flat_map stderrOf (heard events true).
Proof.
  assert (F : forall ms,
             filter isStderrWrite (flat_map (messageActions verbose) ms)
             = flat_map stderrOf ms).
  { intros ms. rewrite filter_flat_map.
    induction ms as [|m ms IH]; cbn [flat_map]; [reflexivity|].
    rewrite stderr_of_message, IH. reflexivity. }
  split.
  - unfold streamCommand.
    pose proof (@deliver_filter verbose exitMarker isStderrWrite
                  (fun _ => eq_refl) eq_refl events
                  ([], {| capturedExitCode := None;
                          trace := before ++ [WsSend (stdinFrame exitMarker command)] |}))
      as E.
    destruct (deliver verbose exitMarker events _) as [result c']. cbn [snd] in *.
    rewrite E by (intros []). cbn [snd trace].
    rewrite filter_app. cbn [filter isStderrWrite]. rewrite app_nil_r.
    f_equal. apply F.
  - rewrite (@listen_filter verbose exitMarker isStderrWrite events
               (wired ([], st)) (fun _ => eq_refl) eq_refl) by (intros []).
    cbn [wired vars errorListener snd]. f_equal. apply F.
Qed.

(** When the socket reports an error and then closes, after [stdout]
    frames whose text is the complete lines [lines] followed by an
    unterminated [partial], the promise is rejected with that error while
    the partial line is still in the buffer, and stays rejected. The close
    listener is still on the socket and runs all the same: it passes the
    partial line to [flushLine], empties the buffer and, when no exit code
    was captured, prints the warning, though its [resolve] has no effect
    any more. *)
Theorem close_after_error_still_flushes (verbose : bool) (exitMarker : str)
  (chunks : list str) (err : exn)
  (lines : list str) (partial : str) (st : sink) :
  Forall noNewline lines -> noNewline partial ->
  concat chunks = joinLines lines partial ->
  deliver verbose exitMarker
    (List.map Message (List.map stdoutFrame chunks) ++ [SocketError err; Close])
    ([], st)
  = (Rejected number err,
     (partial, flushAll (flushLine verbose exitMarker) lines st)) /\
  listen verbose exitMarker
    (List.map Message (List.map stdoutFrame chunks) ++ [SocketError err; Close])
    (wired ([], st))
  = let st1 := flushAll (flushLine verbose exitMarker) (lines ++ [partial]) st in
    {| vars := ([], match capturedExitCode st1 with
                    | None => emit missingExitCodeWarning st1
                    | Some _ => st1
                    end);
       exitPromise := Rejected number err;
       closeListener := false;
       errorListener := false;
       thrown := None |}.
Proof.
  intros Hl Hp Ht. split.
  - rewrite deliver_messages, onMessages_stdout, feedAll_spec by (intros []).
    simpl app. rewrite Ht, splitLines_joinLines by assumption. reflexivity.
  - rewrite listen_messages. cbn [wired vars exitPromise closeListener
                                  errorListener thrown].
    rewrite onMessages_stdout, feedAll_spec by (intros []).
    simpl app. rewrite Ht, splitLines_joinLines by assumption.
    cbn [fst snd listen vars exitPromise closeListener errorListener thrown
         settle].
    rewrite onClose_spec, flushAll_app. cbv zeta.
    change (flushAll (flushLine verbose exitMarker) [partial] ?s)
      with (flushLine verbose exitMarker partial s).
    destruct (capturedExitCode _); reflexivity.
Qed.

Lemma close_after_error_still_flushes_witness :
  deliver false marker0
    (List.map Message (List.map stdoutFrame [lit "one" ++ newline ++ lit "tw"; lit "o"])
       ++ [SocketError (Failure 7); Close]) ([], sink0)
  = (Rejected number (Failure 7),
     (lit "two", {| capturedExitCode := None;
                    trace := [StdoutWrite (lit "one" ++ newline)] |})) /\
  listen false marker0
    (List.map Message (List.map stdoutFrame [lit "one" ++ newline ++ lit "tw"; lit "o"])
       ++ [SocketError (Failure 7); Close]) (wired ([], sink0))
  = {| vars := ([], {| capturedExitCode := None;
                       trace := [StdoutWrite (lit "one" ++ newline);
                                 StdoutWrite (lit "two" ++ newline);
                                 missingExitCodeWarning] |});
       exitPromise := Rejected number (Failure 7);
       closeListener := false;
       errorListener := false;
       thrown := None |}.
Proof.
  apply (@close_after_error_still_flushes false marker0
           [lit "one" ++ newline ++ lit "tw"; lit "o"] (Failure 7)
           [lit "one"] (lit "two") sink0).
  - repeat constructor. apply noNewline_check; reflexivity.
  - apply noNewline_check; reflexivity.
  - reflexivity.
Defined.

(** ** Nothing is sent before the socket is open *)

(** When the terminal was created but the socket fails before it opens,
    [run] is rejected with the socket's error; it has made the request and
    the connection attempt, and nothing else: no frame is sent and no
    event is looked at. *)
Theorem socket_failure_sends_nothing (self : runner) (w : world)
  (command path : str) (err : exn) (before : list action) :
  trim command <> [] ->
  proxyUrlValid self = true ->
  terminalPath w = Some path ->
  opened w = Some err ->
  run self w command before =
  (Rejected number err, before ++ prelude self command path).
Proof.
  intros Hc Hu Hp Ho. unfold run, terminalPath, prelude in *.
  destruct (trim command) as [|c0 rest]; [congruence|].
  unfold createRemoteTerminal, executeInTerminal, parseProxyUrl, bind.
  rewrite Hu, Ho.
  destruct (fetched w) as [|ok statusText body]; [discriminate|].
  destruct ok; [|discriminate].
  destruct body as [json|]; [|discriminate].
  destruct (getNamed json (lit "name")) as [name|]; [|discriminate].
  unfold tell, liftThrow, throw; cbn [negb].
  destruct (verbose self); unfold ret; cbn beta iota; rewrite Hp; cbn beta iota;
    rewrite <- ?app_assoc; reflexivity.
Qed.

Lemma socket_failure_sends_nothing_witness :
  run loud
    {| fetched := created; opened := Some (Failure 1); uuid := uuid0;
       events := [Message (stdoutFrame (marker0 ++ lit ":0" ++ newline)); Close] |}
    (lit "ls") []
  = (Rejected number (Failure 1),
     [] ++ prelude loud (lit "ls") (lit "1")).
Proof.
  apply (@socket_failure_sends_nothing loud
           {| fetched := created; opened := Some (Failure 1); uuid := uuid0;
              events := [Message (stdoutFrame (marker0 ++ lit ":0" ++ newline));
                         Close] |}
           (lit "ls") (lit "1") (Failure 1) []).
  - discriminate.
  - reflexivity.
  - reflexivity.
  - reflexivity.
Defined.

(** ** One request, one socket, one frame *)

Lemma network_of_message (verbose : bool) (data : option value) :
  filter isNetwork (messageActions verbose data) = [].
Proof.
  unfold messageActions.
  destruct data as [frame|]; [|reflexivity].
  destruct (getIndex frame 0) as [tag|]; [|reflexivity].
  destruct tag; try reflexivity.
  destruct (str_eqb s (lit "stdout")).
  - destruct (ToString _); reflexivity.
  - destruct (str_eqb s (lit "stderr")).
    + destruct (orUndefined _); reflexivity.
    + destruct (str_eqb s (lit "disconnect")); [|reflexivity].
      destruct verbose; reflexivity.
Qed.

Lemma streamCommand_network (verbose : bool) (exitMarker : str)
  (events : list ws_event) (command : str) (before : list action) :
  filter isNetwork (snd (streamCommand verbose exitMarker events command before))
  = filter isNetwork before ++ [WsSend (stdinFrame exitMarker command)].
Proof.
  unfold streamCommand.
  pose proof (@deliver_filter verbose exitMarker isNetwork
                (fun _ => eq_refl) eq_refl events
                ([], {| capturedExitCode := None;
                        trace := before ++ [WsSend (stdinFrame exitMarker command)] |}))
    as E.
  destruct (deliver verbose exitMarker events _) as [result c']. cbn [snd] in *.
  rewrite E by (intros []). cbn [snd trace].
  rewrite filter_flat_map. clear E.
  assert (flat_map (fun x => filter isNetwork (messageActions verbose x))
            (deliveredMessages events) = []) as ->.
  { induction (deliveredMessages events) as [|m ms IH]; cbn [flat_map];
      [reflexivity|].
    rewrite network_of_message, IH. reflexivity. }
  rewrite app_nil_r, filter_app. reflexivity.
Qed.

(** Whatever the remote side does, the network actions of a run are, in
    this order, at most one create-terminal request, at most one socket
    connection and at most one frame sent, the [stdin] frame carrying the
    wrapped command; a run that returns an exit code has done all three. *)
Theorem run_network_actions (self : runner) (w : world) (command : str) :
  exists k path,
    filter isNetwork (snd (run self w command []))
    = firstn k [HttpPost (lit "api/terminals");
                WsConnect (lit "terminals/websocket/" ++ path);
                WsSend (stdinFrame (exitMarkerOf w) command)] /\
    (forall code, fst (run self w command []) = Resolved code -> k = 3%nat).
Proof.
  unfold run.
  destruct (trim command) as [|c0 rest].
  { exists 0%nat, []. split; [reflexivity | discriminate]. }
  unfold createRemoteTerminal, executeInTerminal, parseProxyUrl.
  destruct (verbose self);
    (destruct (proxyUrlValid self);
     cbv beta iota delta [liftThrow bind throw tell ret negb];
     [|exists 0%nat, []; split; [reflexivity | discriminate]];
     destruct (fetched w) as [err|[|] statusText [json|]];
     cbv beta iota delta [liftThrow bind throw tell ret negb];
     try (exists 1%nat, []; split; [reflexivity | discriminate]);
     destruct (getNamed json (lit "name")) as [name|];
     cbv beta iota delta [liftThrow bind throw tell ret negb];
     [|exists 1%nat, []; split; [reflexivity | discriminate]];
     destruct (ToString name) as [path|];
     cbv beta iota delta [liftThrow bind throw tell ret negb];
     [|exists 1%nat, []; split; [reflexivity | discriminate]];
     destruct (opened w) as [err|];
     cbv beta iota delta [liftThrow bind throw tell ret negb];
     [exists 2%nat, path; split; [reflexivity | discriminate]
     |exists 3%nat, path; split;
      [rewrite streamCommand_network; reflexivity | reflexivity]]).
Qed.

(** ** A response without a terminal name *)

(** The name in the response is not checked: when the body is an object
    with no [name] property, the runner goes on and connects to the
    terminal called [undefined]. *)
Theorem missing_name_connects_to_undefined (self : runner) (w : world)
  (command statusText : str) (props : list (str * value))
  (before : list action) :
  trim command <> [] ->
  proxyUrlValid self = true ->
  fetched w = Response true statusText (Some (VObj props)) ->
  lookup (lit "name") props = None ->
  opened w = None ->
  run self w command before =
  streamCommand (verbose self) (exitMarkerOf w) (events w) command
    (before ++ prelude self command (lit "undefined")).
Proof.
  intros Hc Hu Hf Hn Ho. apply run_streams; try assumption.
  unfold terminalPath. rewrite Hf. cbn [getNamed]. rewrite Hn. reflexivity.
Qed.

Lemma missing_name_connects_to_undefined_witness :
  run quiet
    {| fetched := Response true (lit "OK") (Some (VObj [(lit "id", VNum (lit "3"))]));
       opened := None; uuid := uuid0; events := [Close] |}
    (lit "ls") []
  = (Resolved (Finite 1),
     [HttpPost (lit "api/terminals");
      WsConnect (lit "terminals/websocket/undefined");
      WsSend (stdinFrame marker0 (lit "ls"));
      missingExitCodeWarning]).
Proof.
  rewrite (@missing_name_connects_to_undefined quiet
             {| fetched := Response true (lit "OK")
                             (Some (VObj [(lit "id", VNum (lit "3"))]));
                opened := None; uuid := uuid0; events := [Close] |}
             (lit "ls") (lit "OK") [(lit "id", VNum (lit "3"))] []).
  - reflexivity.
  - discriminate.
  - reflexivity.
  - reflexivity.
  - reflexivity.
  - reflexivity.
Defined.

(** ** Carriage returns and trimming *)

Lemma removeCR_filter (s : str) :
  replaceAll CR_REGEX s = filter (fun c => negb (c =? 13)%N) s.
Proof.
  unfold replaceAll. induction s as [|c s IH]; [reflexivity|].
  cbn [replace_go match_here CR_REGEX filter].
  destruct (c =? 13)%N; cbn [negb].
  - unfold str, code_unit in *.
    assert (E : (List.length (c :: s) - List.length s = 1)%nat)
      by (cbn [length]; lia).
    rewrite E. exact IH.
  - f_equal. exact IH.
Qed.

Lemma removeCR_suffix (s : str) :
  ~ In 13%N s -> replaceAll CR_REGEX (s ++ [13%N]) = s.
Proof.
  intros H. rewrite removeCR_filter, filter_app. cbn [filter].
  change (13 =? 13)%N with true. cbn [negb]. rewrite app_nil_r.
  rewrite <- removeCR_filter. apply removeCR_id. exact H.
Qed.

Lemma trimStart_head (c : code_unit) (s : str) :
  isWhiteSpace c = false -> trimStart (c :: s) = c :: s.
Proof. intros H. cbn [trimStart]. rewrite H. reflexivity. Qed.

(** A text that neither starts nor ends with white space is its own trim. *)
Lemma trim_ends (a z : code_unit) (mid : str) :
  isWhiteSpace a = false -> isWhiteSpace z = false ->
  trim (a :: mid ++ [z]) = a :: mid ++ [z].
Proof.
  intros Ha Hz. unfold trim, trimEnd. rewrite (@trimStart_head a _ Ha).
  change (a :: mid ++ [z]) with ((a :: mid) ++ [z]).
  rewrite rev_app_distr. cbn [rev app]. rewrite (@trimStart_head z _ Hz).
  change (z :: rev mid ++ [a]) with ([z] ++ rev (a :: mid)).
  rewrite rev_app_distr, rev_involutive. reflexivity.
Qed.

Lemma trim_single (a : code_unit) : isWhiteSpace a = false -> trim [a] = [a].
Proof. intros Ha. unfold trim, trimEnd. cbn. rewrite Ha. cbn. rewrite Ha. reflexivity. Qed.

(** ** Plain output *)

(** With verbose mode off, a line with no carriage return and no escape
    character that does not start with the prompt prefix is written as
    received, white space at both ends included, unless it is empty, the
    sentinel or boilerplate: trimming is for recognition only. *)
Theorem plain_line_is_written_as_received (exitMarker line : str) (st : sink) :
  ~ In 13%N line ->
  ~ In 27%N line ->
  startsWith line PROMPT_PREFIX = false ->
  line <> [] ->
  startsWith (trim line) (exitMarker ++ lit ":") = false ->
  ~ boilerplate (trim line) ->
  flushLine false exitMarker line st = emit (StdoutWrite (line ++ newline)) st.
Proof.
  intros Hcr Hesc Hp Hne Hs Hb.
  assert (Hw : withoutPrompt line = line).
  { unfold withoutPrompt, normalize.
    rewrite removeCR_id, stripAnsi_id, Hp by assumption. reflexivity. }
  unfold flushLine. rewrite Hw, Hs.
  assert (shouldSuppressLine (trim line) exitMarker = false) as ->
    by (apply shouldSuppressLine_false; split; assumption).
  cbn [negb andb].
  destruct line as [|c l]; [congruence|]. reflexivity.
Qed.

Lemma plain_line_is_written_as_received_witness :
  flushLine false marker0 (lit "    return 0;  ") sink0
  = emit (StdoutWrite (lit "    return 0;  " ++ newline)) sink0.
Proof.
  apply (@plain_line_is_written_as_received marker0 (lit "    return 0;  ") sink0).
  - apply not_in_check. reflexivity.
  - apply not_in_check. reflexivity.
  - reflexivity.
  - discriminate.
  - reflexivity.
  - apply (proj2 (proj1 (shouldSuppressLine_false (trim (lit "    return 0;  "))
                           marker0) eq_refl)).
Defined.

(** ** The echo of the payload *)

Lemma payload_is_joined (exitMarker command : str) :
  payload exitMarker command = join newline (payloadLines exitMarker command).
Proof. reflexivity. Qed.

Lemma printf_line_target (uuid tail_ : str) :
  forallb isUuidChar uuid = true ->
  In tail_ [[]; [13%N]] ->
  detectionTarget
    ((lit "printf '" ++ (EXIT_SENTINEL_PREFIX ++ uuid) ++ lit ":%s\n' "
        ++ quote ++ lit "$__COLAB_CLI_STATUS" ++ quote) ++ tail_)
  = lit "printf '" ++ (EXIT_SENTINEL_PREFIX ++ uuid) ++ lit ":%s\n' "
      ++ quote ++ lit "$__COLAB_CLI_STATUS" ++ quote
  /\ withoutPrompt
       ((lit "printf '" ++ (EXIT_SENTINEL_PREFIX ++ uuid) ++ lit ":%s\n' "
           ++ quote ++ lit "$__COLAB_CLI_STATUS" ++ quote) ++ tail_)
     = lit "printf '" ++ (EXIT_SENTINEL_PREFIX ++ uuid) ++ lit ":%s\n' "
         ++ quote ++ lit "$__COLAB_CLI_STATUS" ++ quote.
Proof.
  intros Hu Ht.
  set (l := lit "printf '" ++ (EXIT_SENTINEL_PREFIX ++ uuid) ++ lit ":%s\n' "
              ++ quote ++ lit "$__COLAB_CLI_STATUS" ++ quote).
  assert (Hno : forall c, plainChar c = false ->
                  forallb (fun x => negb (x =? c)%N)
                    (lit "printf '" ++ lit ":%s\n' " ++ quote
                       ++ lit "$__COLAB_CLI_STATUS" ++ quote) = true ->
                  ~ In c l).
  { intros c Hc Hlit F. unfold l in F.
    apply in_app_or in F as [F | F];
      [revert F; apply not_in_check;
       rewrite forallb_app in Hlit; apply andb_true_iff in Hlit; tauto|].
    apply in_app_or in F as [F | F];
      [revert F; apply plain_not_in; [apply exitMarker_plain; exact Hu | exact Hc]|].
    revert F. apply not_in_check.
    rewrite forallb_app in Hlit; apply andb_true_iff in Hlit; tauto. }
  assert (Hcr : ~ In 13%N l) by (apply Hno; reflexivity).
  assert (Hesc : ~ In 27%N l) by (apply Hno; reflexivity).
  assert (Hn : normalize (l ++ tail_) = l).
  { unfold normalize. destruct Ht as [<- | [<- | []]].
    - rewrite app_nil_r, removeCR_id by exact Hcr. apply stripAnsi_id, Hesc.
    - rewrite removeCR_suffix by exact Hcr. apply stripAnsi_id, Hesc. }
  assert (Hw : withoutPrompt (l ++ tail_) = l).
  { unfold withoutPrompt. rewrite Hn. reflexivity. }
  split; [|exact Hw].
  unfold detectionTarget. rewrite Hw. unfold l.
  change (lit "printf '" ++ ?x) with (112%N :: lit "rintf '" ++ x).
  rewrite !app_assoc. unfold quote at 2. rewrite <- !app_assoc.
  rewrite !app_assoc. rewrite <- (app_assoc (lit "rintf '")).
  rewrite <- !app_assoc.
  repeat rewrite (app_assoc _ _ [34%N]).
  apply trim_ends; reflexivity.
Qed.

(** The remote terminal echoes what it is sent. With verbose mode off the
    echo of every line of the payload except the user's command and the
    status assignment is hidden, with or without a carriage return at its
    end, and none of them is taken for the sentinel: the exit code and the
    output are left as they were. *)
Theorem plumbing_echo_is_hidden (uuid command l tail_ : str) (st : sink) :
  forallb isUuidChar uuid = true ->
  In l (hiddenPlumbing (EXIT_SENTINEL_PREFIX ++ uuid)) ->
  In tail_ [[]; [13%N]] ->
  In l (payloadLines (EXIT_SENTINEL_PREFIX ++ uuid) command) /\
  flushLine false (EXIT_SENTINEL_PREFIX ++ uuid) (l ++ tail_) st = st.
Proof.
  intros Hu Hl Ht. split.
  - cbn [hiddenPlumbing payloadLines In] in *. intuition.
  - cbn [hiddenPlumbing In] in Hl.
    destruct Hl as [<- | [<- | [<- | [<- | [<- | []]]]]];
      try (destruct Ht as [<- | [<- | []]]; reflexivity).
    destruct (printf_line_target uuid Hu Ht) as [Hd Hw].
    unfold detectionTarget in Hd. unfold flushLine. rewrite Hd. clear Hd Hw.
    change (startsWith
              (lit "printf '" ++ (EXIT_SENTINEL_PREFIX ++ uuid) ++ lit ":%s\n' "
                 ++ quote ++ lit "$__COLAB_CLI_STATUS" ++ quote)
              ((EXIT_SENTINEL_PREFIX ++ uuid) ++ lit ":")) with false.
    cbv iota.
    assert (shouldSuppressLine
              (lit "printf '" ++ (EXIT_SENTINEL_PREFIX ++ uuid) ++ lit ":%s\n' "
                 ++ quote ++ lit "$__COLAB_CLI_STATUS" ++ quote)
              (EXIT_SENTINEL_PREFIX ++ uuid) = true) as ->
      by (apply shouldSuppressLine_spec; right; right; reflexivity).
    reflexivity.
Qed.

Lemma plumbing_echo_is_hidden_witness :
  In (lit "printf '" ++ marker0 ++ lit ":%s\n' "
        ++ quote ++ lit "$__COLAB_CLI_STATUS" ++ quote)
    (payloadLines marker0 (lit "make test")) /\
  flushLine false marker0
    ((lit "printf '" ++ marker0 ++ lit ":%s\n' "
        ++ quote ++ lit "$__COLAB_CLI_STATUS" ++ quote) ++ [13%N]) sink0
  = sink0.
Proof.
  apply (@plumbing_echo_is_hidden uuid0 (lit "make test")
           (lit "printf '" ++ marker0 ++ lit ":%s\n' "
              ++ quote ++ lit "$__COLAB_CLI_STATUS" ++ quote)
           [13%N] sink0).
  - reflexivity.
  - cbn [hiddenPlumbing In]. tauto.
  - cbn [In]. tauto.
Defined.

(** ** Several sentinel lines *)

Lemma stepCode_sentinelCode (exitMarker : str) (code : option number)
  (line : str) :
  stepCode exitMarker code line =
  match sentinelCode exitMarker line with
  | Some n => Some n
  | None => code
  end.
Proof.
  unfold stepCode, sentinelCode.
  destruct (isSentinel exitMarker line); reflexivity.
Qed.

Lemma stepCode_silent (exitMarker : str) (lines : list str)
  (code : option number) :
  Forall (fun l => sentinelCode exitMarker l = None) lines ->
  fold_left (stepCode exitMarker) lines code = code.
Proof.
  intros H; revert code; induction H as [|l ls Hl _ IH]; intros code;
    [reflexivity|].
  cbn [fold_left]. rewrite IH, stepCode_sentinelCode, Hl. reflexivity.
Qed.

(** The run does not stop at the sentinel. Of all the lines received
    before the close, the last one that is a sentinel with an integer
    decides: [run] returns its integer, whatever sentinels came before and
    whatever other lines come after. *)
Theorem last_sentinel_decides (self : runner) (w : world)
  (command path : str) (messages : list (option value))
  (later : list ws_event) (lines : list str) (partial : str)
  (earlier : list str) (sentinel : str) (after : list str) (n : number) :
  trim command <> [] ->
  proxyUrlValid self = true ->
  terminalPath w = Some path ->
  opened w = None ->
  events w = List.map Message messages ++ Close :: later ->
  streamText messages = joinLines lines partial ->
  Forall noNewline lines -> noNewline partial ->
  lines ++ [partial] = earlier ++ sentinel :: after ->
  sentinelCode (exitMarkerOf w) sentinel = Some n ->
  Forall (fun l => sentinelCode (exitMarkerOf w) l = None) after ->
  fst (run self w command []) = Resolved n.
Proof.
  intros Hc Hu Hp Ho He Ht Hl Hn Hsplit Hs Hafter.
  rewrite (run_streams self w command [] Hc Hu Hp Ho), He.
  destruct (streamCommand_close (verbose self) (exitMarkerOf w) messages later
              command ([] ++ prelude self command path) Ht Hl Hn) as [t E].
  rewrite Hsplit, fold_left_app in E. cbn [fold_left] in E.
  rewrite stepCode_silent in E by exact Hafter.
  rewrite stepCode_sentinelCode, Hs in E. rewrite E. reflexivity.
Qed.

Lemma last_sentinel_decides_witness :
  fst (run quiet
         (okWorld [Message (stdoutFrame (marker0 ++ lit ":0" ++ newline
                                           ++ marker0 ++ lit ":3" ++ newline
                                           ++ lit "bye" ++ newline
                                           ++ marker0 ++ lit ":"));
                   Close])
         (lit "ls") [])
  = Resolved (Finite 3).
Proof.
  apply (@last_sentinel_decides quiet
           (okWorld [Message (stdoutFrame (marker0 ++ lit ":0" ++ newline
                                             ++ marker0 ++ lit ":3" ++ newline
                                             ++ lit "bye" ++ newline
                                             ++ marker0 ++ lit ":"));
                     Close])
           (lit "ls") (lit "1")
           [stdoutFrame (marker0 ++ lit ":0" ++ newline
                           ++ marker0 ++ lit ":3" ++ newline
                           ++ lit "bye" ++ newline
                           ++ marker0 ++ lit ":")]
           []
           [marker0 ++ lit ":0"; marker0 ++ lit ":3"; lit "bye"]
           (marker0 ++ lit ":")
           [marker0 ++ lit ":0"] (marker0 ++ lit ":3")
           [lit "bye"; marker0 ++ lit ":"] (Finite 3)).
  - discriminate.
  - reflexivity.
  - reflexivity.
  - reflexivity.
  - reflexivity.
  - vm_compute. reflexivity.
  - repeat constructor; apply noNewline_check; reflexivity.
  - apply noNewline_check; reflexivity.
  - reflexivity.
  - reflexivity.
  - repeat constructor.
Defined.

(** ** The sentinel behind decoration *)




(** ** Verbose mode and the outcome *)

Lemma deliver_outcome (v1 v2 : bool) (exitMarker : str)
  (events : list ws_event) (c1 c2 : closure) :
  fst c1 = fst c2 ->
  capturedExitCode (snd c1) = capturedExitCode (snd c2) ->
  noNewline (fst c1) ->
  fst (deliver v1 exitMarker events c1) = fst (deliver v2 exitMarker events c2).
Proof.
  revert c1 c2; induction events as [|ev evs IH]; intros c1 c2 Eb Ec Hb;
    [reflexivity|].
  destruct ev as [data| |err]; cbn [deliver].
  - assert (Hb2 : noNewline (fst c2)) by (rewrite <- Eb; exact Hb).
    destruct (onMessage_lines v1 exitMarker data c1 Hb) as [B1 C1].
    destruct (onMessage_lines v2 exitMarker data c2 Hb2) as [B2 C2].
    apply IH.
    + rewrite B1, B2, Eb. reflexivity.
    + rewrite C1, C2, Eb, Ec. reflexivity.
    + rewrite B1. apply splitLines_rest_noNewline.
  - destruct c1 as [b1 s1], c2 as [b2 s2]. cbn [fst snd] in *. subst b2.
    rewrite !onClose_spec. cbv zeta.
    pose proof (flushLine_code v1 exitMarker b1 s1) as F1.
    pose proof (flushLine_code v2 exitMarker b1 s2) as F2.
    rewrite Ec in F1. rewrite <- F2 in F1.
    destruct (capturedExitCode (flushLine v1 exitMarker b1 s1)),
             (capturedExitCode (flushLine v2 exitMarker b1 s2));
      try discriminate; [injection F1 as ->|]; reflexivity.
  - reflexivity.
Qed.

Lemma streamCommand_outcome (v1 v2 : bool) (exitMarker : str)
  (events : list ws_event) (command : str) (b1 b2 : list action) :
  fst (streamCommand v1 exitMarker events command b1)
  = fst (streamCommand v2 exitMarker events command b2).
Proof.
  unfold streamCommand.
  pose proof (@deliver_outcome v1 v2 exitMarker events
                ([], {| capturedExitCode := None;
                        trace := b1 ++ [WsSend (stdinFrame exitMarker command)] |})
                ([], {| capturedExitCode := None;
                        trace := b2 ++ [WsSend (stdinFrame exitMarker command)] |})
                eq_refl eq_refl) as E.
  destruct (deliver v1 exitMarker events _) as [r1 c1'].
  destruct (deliver v2 exitMarker events _) as [r2 c2'].
  apply E. intros [].
Qed.

(** How a run ends (the exit code it returns, the error it fails with,
    or that it stays pending) does not depend on verbose mode or on the
    runtime's label: they change what is printed, nothing else. *)
Theorem outcome_independent_of_verbosity (self1 self2 : runner) (w : world)
  (command : str) :
  proxyUrlValid self1 = proxyUrlValid self2 ->
  fst (run self1 w command []) = fst (run self2 w command []).
Proof.
  intros Hu. unfold run.
  destruct (trim command) as [|c0 rest]; [reflexivity|].
  unfold createRemoteTerminal, executeInTerminal, parseProxyUrl.
  rewrite Hu.
  destruct (verbose self1), (verbose self2);
    destruct (proxyUrlValid self2);
    cbv beta iota delta [liftThrow bind throw tell ret negb]; try reflexivity;
    destruct (fetched w) as [err|[|] statusText [json|]];
    cbv beta iota delta [liftThrow bind throw tell ret negb]; try reflexivity;
    destruct (getNamed json (lit "name")) as [name|];
    cbv beta iota delta [liftThrow bind throw tell ret negb]; try reflexivity;
    destruct (ToString name) as [path|];
    cbv beta iota delta [liftThrow bind throw tell ret negb]; try reflexivity;
    destruct (opened w) as [err|];
    cbv beta iota delta [liftThrow bind throw tell ret negb]; try reflexivity;
    apply streamCommand_outcome.
Qed.

Lemma outcome_independent_of_verbosity_witness :
  fst (run quiet (okWorld (sentinelThenClose (okWorld []) (lit "2") []))
         (lit "ls") [])
  = fst (run loud (okWorld (sentinelThenClose (okWorld []) (lit "2") []))
           (lit "ls") []).
Proof.
  apply (@outcome_independent_of_verbosity quiet loud
           (okWorld (sentinelThenClose (okWorld []) (lit "2") [])) (lit "ls")).
  reflexivity.
Defined.

(** ** What [stripAnsi] leaves alone *)

(** Only control sequences that start with ESC [[] are removed. A text in
    which no escape character is followed by [[] comes out of [stripAnsi]
    unchanged, escape characters included: other escape sequences (titles,
    character sets) are not stripped. *)
Theorem stripAnsi_removes_only_csi (s : str) :
  (forall pre post, s <> pre ++ 27%N :: 91%N :: post) ->
  stripAnsi s = s.
Proof.
  intros H. apply replace_go_unmatched. intros pre c post E.
  cbn [match_here ANSI_ESCAPE_REGEX]. unfold isEsc, isBracket.
  destruct (N.eqb_spec c 27) as [->|_]; [|reflexivity].
  destruct post as [|d post]; [reflexivity|].
  destruct (N.eqb_spec d 91) as [->|_]; [|reflexivity].
  exfalso. exact (H pre post E).
Qed.

Lemma stripAnsi_removes_only_csi_witness :
  stripAnsi (27%N :: lit "]0;title" ++ 7%N :: 27%N :: lit "(B" ++ [27%N])
  = 27%N :: lit "]0;title" ++ 7%N :: 27%N :: lit "(B" ++ [27%N].
Proof.
  apply (@stripAnsi_removes_only_csi
           (27%N :: lit "]0;title" ++ 7%N :: 27%N :: lit "(B" ++ [27%N])).
  intros pre post E.
  repeat (destruct pre as [|? pre]; [discriminate E|];
          injection E as _ E).
  destruct pre; discriminate E.
Defined.

(** * The configuration loader *)

Import Config.

Lemma search_trace (sys : system) (candidates : list str) (t : list fsAction) :
  search sys candidates t =
  (fst (search sys candidates []), t ++ snd (search sys candidates [])).
Proof.
  revert t; induction candidates as [|c rest IH]; intros t; cbn [search].
  - rewrite app_nil_r. reflexivity.
  - destruct (readFile sys c) as [|message|raw].
    + rewrite (IH (t ++ [ReadFile c])), (IH ([] ++ [ReadFile c])).
      cbn [fst snd app]. rewrite <- app_assoc. reflexivity.
    + reflexivity.
    + destruct (jsonParse sys raw) as [message|json]; [reflexivity|].
      destruct (schema sys json); reflexivity.
Qed.

Lemma search_skips_missing (sys : system) (missing rest : list str)
  (t : list fsAction) :
  Forall (fun p => readFile sys p = ENOENT) missing ->
  search sys (missing ++ rest) t =
  search sys rest (t ++ List.map ReadFile missing).
Proof.
  intros H; revert t; induction H as [|p ps Hp _ IH]; intros t; cbn [app List.map].
  - rewrite app_nil_r. reflexivity.
  - cbn [search]. rewrite Hp, IH, <- app_assoc. reflexivity.
Qed.

(** The search stops at the first file that exists. Files that are not
    there are skipped silently; the first one that is there decides, found
    or failed, exactly as if it were the only candidate; the candidates
    after it are never read, so a valid file does not make up for an
    unreadable or invalid one before it. *)
Theorem first_existing_config_decides (sys : system)
  (missing : list str) (c : str) (rest : list str) (t : list fsAction) :
  Forall (fun p => readFile sys p = ENOENT) missing ->
  readFile sys c <> ENOENT ->
  search sys (missing ++ c :: rest) t =
  (fst (search sys [c] []), t ++ List.map ReadFile (missing ++ [c])) /\
  fst (search sys [c] []) <> NotFound.
Proof.
  intros Hm Hc. rewrite search_skips_missing by exact Hm.
  rewrite map_app, app_assoc. cbn [search List.map].
  destruct (readFile sys c) as [|message|raw]; [congruence| |].
  - split; [reflexivity | discriminate].
  - destruct (jsonParse sys raw) as [message|json];
      [split; [reflexivity | discriminate]|].
    destruct (schema sys json); split; try reflexivity; discriminate.
Qed.

Lemma first_existing_config_decides_witness :
  search sampleSystem
    ([lit "/work/cgpu.config.json"; lit "/work/colab-cli.config.json"]
       ++ homeConfigPath :: [lit "/home/u/.config/colab-cli/config.json"]) []
  = (fst (search sampleSystem [homeConfigPath] []),
     [] ++ List.map ReadFile
             ([lit "/work/cgpu.config.json"; lit "/work/colab-cli.config.json"]
                ++ [homeConfigPath])) /\
  fst (search sampleSystem [homeConfigPath] []) <> NotFound.
Proof.
  apply (@first_existing_config_decides sampleSystem
           [lit "/work/cgpu.config.json"; lit "/work/colab-cli.config.json"]
           homeConfigPath [lit "/home/u/.config/colab-cli/config.json"] []).
  - repeat constructor.
  - discriminate.
Defined.




Lemma search_reads_only (sys : system) (candidates : list str) :
  filter isMkdir (snd (search sys candidates [])) = [].
Proof.
  induction candidates as [|c rest IH]; [reflexivity|].
  cbn [search]. destruct (readFile sys c) as [|message|raw].
  - rewrite search_trace. cbn [snd]. rewrite filter_app, IH. reflexivity.
  - reflexivity.
  - destruct (jsonParse sys raw) as [message|json]; [reflexivity|].
    destruct (schema sys json); reflexivity.
Qed.

Lemma finish_shape (sys : system) (c : parsedConfig) (t : list fsAction) :
  filter isMkdir t = [] ->
  exists t' d,
    snd (finish sys c t) = t' ++ [Mkdir d] /\
    filter isMkdir t' = [] /\
    match fst (finish sys c t) with
    | inr cfg => resolvedStorageDir cfg = d /\ parsed cfg = c
    | inl err => mkdir sys d = Some err
    end.
Proof.
  intros Ht. unfold finish, resolveStorageDir.
  destruct (storageDir c) as [[|x p]|];
    destruct (storageCandidates sys) as [first second];
    try destruct (accessible sys first); try destruct (accessible sys second);
    match goal with
    | |- context [mkdir sys ?d] =>
        destruct (mkdir sys d) as [err|] eqn:Em; cbn [fst snd];
        eexists; exists d; (split; [reflexivity|]);
        (split; [rewrite ?filter_app, Ht; reflexivity|]);
        try (split; reflexivity); exact Em
    end.
Qed.

(** The storage directory is created last and only for a configuration
    that was accepted. When [loadConfig] returns a configuration, its one
    [mkdir] is its last action and creates the directory it returns; when
    it fails, it either has created nothing or fails with the error of
    that one [mkdir]. *)
Theorem directory_created_only_on_acceptance (sys : system)
  (customPath : option str) :
  match fst (loadConfig sys customPath) with
  | inr cfg =>
      exists t,
        snd (loadConfig sys customPath) = t ++ [Mkdir (resolvedStorageDir cfg)] /\
        filter isMkdir t = []
  | inl err =>
      filter isMkdir (snd (loadConfig sys customPath)) = [] \/
      exists t d,
        snd (loadConfig sys customPath) = t ++ [Mkdir d] /\
        filter isMkdir t = [] /\
        mkdir sys d = Some err
  end.
Proof.
  unfold loadConfig.
  set (t0 := List.map DotenvConfig (envFiles sys)).
  assert (H0 : filter isMkdir t0 = [])
    by (unfold t0; induction (envFiles sys); [reflexivity | assumption]).
  rewrite search_trace.
  assert (Ht : filter isMkdir
                 (t0 ++ snd (search sys (searchOrder sys customPath) [])) = [])
    by (rewrite filter_app, H0, search_reads_only; reflexivity).
  destruct (fst (search sys (searchOrder sys customPath) [])) as [c| |err].
  - destruct (finish_shape sys c _ Ht) as (t' & d & E & Hf & Hr).
    destruct (fst (finish sys c _)) as [err|cfg].
    + right. exists t', d. auto.
    + destruct Hr as [<- _]. exists t'. auto.
  - destruct (schema sys _) as [issues|c]; [left; exact Ht|].
    destruct (finish_shape sys c _ Ht) as (t' & d & E & Hf & Hr).
    destruct (fst (finish sys c _)) as [err|cfg].
    + right. exists t', d. auto.
    + destruct Hr as [<- _]. exists t'. auto.
  - left. exact Ht.
Qed.

Lemma search_withEnvironment (sys : system) (env : str -> option str)
  (dotenv : str -> str -> option str) (candidates : list str)
  (t : list fsAction) :
  search (withEnvironment sys env dotenv) candidates t = search sys candidates t.
Proof.
  revert t; induction candidates as [|c rest IH]; intros t; [reflexivity|].
  cbn [search]. change (readFile (withEnvironment sys env dotenv) c)
    with (readFile sys c).
  destruct (readFile sys c); [apply IH | reflexivity | reflexivity].
Qed.

Lemma finish_withEnvironment (sys : system) (env : str -> option str)
  (dotenv : str -> str -> option str) (c : parsedConfig) (t : list fsAction) :
  homeAfter (withEnvironment sys env dotenv) = homeAfter sys ->
  finish (withEnvironment sys env dotenv) c t = finish sys c t.
Proof.
  intros Ha. unfold finish, resolveStorageDir, storageCandidates.
  rewrite Ha. reflexivity.
Qed.

(** Configuration files and the environment are not merged. Take another
    environment and other [.env] files under which [os.homedir()] answers
    as before, when [loadEnvFiles] asks and when the rest of [loadConfig]
    does. As soon as one candidate file exists, valid or not, [loadConfig]
    returns the same and asks the same of the file system as before: the
    variables for the credentials, the domains and the state directory
    play no part. The [.env] files are loaded all the same. *)
Theorem config_file_overrides_environment (sys : system)
  (env : str -> option str) (dotenv : str -> str -> option str)
  (customPath : option str) :
  homeBefore (withEnvironment sys env dotenv) = homeBefore sys ->
  homeAfter (withEnvironment sys env dotenv) = homeAfter sys ->
  fst (search sys (searchOrder sys customPath) []) <> NotFound ->
  loadConfig (withEnvironment sys env dotenv) customPath
  = loadConfig sys customPath.
Proof.
  intros Hb Ha H. unfold loadConfig.
  assert (Eo : searchOrder (withEnvironment sys env dotenv) customPath
               = searchOrder sys customPath)
    by (unfold searchOrder; rewrite Ha; reflexivity).
  assert (Ef : envFiles (withEnvironment sys env dotenv) = envFiles sys)
    by (unfold envFiles; rewrite Hb; reflexivity).
  rewrite Eo, Ef, search_withEnvironment.
  rewrite search_trace.
  destruct (fst (search sys (searchOrder sys customPath) [])) as [c| |err];
    [apply finish_withEnvironment; exact Ha | congruence | reflexivity].
Qed.

Lemma config_file_overrides_environment_witness :
  loadConfig
    (withEnvironment sampleSystem
       (fun k => if str_eqb k (lit "COLAB_CLIENT_ID")
                 then Some (lit "other") else None)
       (fun file k => if str_eqb k (lit "COLAB_STATE_DIR")
                      then Some (lit "/state") else None))
    None
  = loadConfig sampleSystem None.
Proof.
  apply (@config_file_overrides_environment sampleSystem
           (fun k => if str_eqb k (lit "COLAB_CLIENT_ID")
                     then Some (lit "other") else None)
           (fun file k => if str_eqb k (lit "COLAB_STATE_DIR")
                          then Some (lit "/state") else None)
           None).
  - reflexivity.
  - reflexivity.
  - discriminate.
Defined.

(** The home directory is another matter: where [os.homedir()] follows
    [HOME], that variable moves the [.env] files, the candidates and the
    default storage directory, and with them what [loadConfig] finds. *)
Remark home_variable_moves_the_search :
  loadConfig sampleSystem None
  = (inr {| parsed := sampleConfig;
            resolvedStorageDir := lit "/home/u/.config/colab-cli" |},
     [DotenvConfig (lit "/work/.env");
      DotenvConfig (lit "/home/u/.config/cgpu/.env");
      DotenvConfig (lit "/home/u/.config/colab-cli/.env");
      ReadFile (lit "/work/cgpu.config.json");
      ReadFile (lit "/work/colab-cli.config.json");
      ReadFile (lit "/home/u/.config/cgpu/config.json");
      Access (lit "/home/u/.config/cgpu");
      Access (lit "/home/u/.config/colab-cli");
      Mkdir (lit "/home/u/.config/colab-cli")]) /\
  loadConfig
    (withEnvironment sampleSystem
       (fun k => if str_eqb k (lit "HOME") then Some (lit "/home/v") else None)
       (fun _ _ => None))
    None
  = (inr {| parsed := sampleConfig;
            resolvedStorageDir := lit "/home/v/.config/cgpu" |},
     [DotenvConfig (lit "/work/.env");
      DotenvConfig (lit "/home/v/.config/cgpu/.env");
      DotenvConfig (lit "/home/v/.config/colab-cli/.env");
      ReadFile (lit "/work/cgpu.config.json");
      ReadFile (lit "/work/colab-cli.config.json");
      ReadFile (lit "/home/v/.config/cgpu/config.json");
      ReadFile (lit "/home/v/.config/colab-cli/config.json");
      Access (lit "/home/v/.config/cgpu");
      Access (lit "/home/v/.config/colab-cli");
      Mkdir (lit "/home/v/.config/cgpu")]).
Proof.
  split; reflexivity.
Qed.
